(** * Resin print portal: the browser dashboard (static/js/main.js) and the
    relay controller plugin script, embedded and verified.

    The dashboard is a set of JavaScript functions over page-scoped
    variables and the DOM. Most of them are [async]: they run on the
    browser's event loop, stop at every [await] and are resumed when the
    awaited promise settles. The embedding is shallow:

    - JavaScript values ([jsval]) are the JSON values plus [undefined] and
      [NaN]; objects used as maps are [gmap string _];
    - the page-scoped variables, the part of the DOM the script writes and
      the record of what left the page (requests, console.error lines,
      calls started without [await]) form the [State];
    - an async function is a program of the resumption monad [Prog]: reads
      and writes of the state, [throw], and one node per [await];
      [try]/[catch]/[finally] are functions on programs;
    - [run] runs a program up to its next [await]; [exec] runs one call to
      its end against scripted replies; [step] is the event loop, with any
      number of calls in flight. *)

From stdpp Require Import gmap strings pretty list fin_maps.
From Stdlib Require Import ZArith QArith Qround Lqa.

Close Scope Q_scope.

Set Warnings "-register-all".

(** ** JavaScript values *)

Inductive jsval : Type :=
| VUndef
| VNull
| VBool (b : bool)
| VNum (x : Q)
| VNaN
| VStr (s : string)
| VArr (l : list jsval)
| VObj (o : gmap string jsval).

(** ToBoolean. *)
Definition truthy (v : jsval) : bool :=
  match v with
  | VUndef | VNull | VNaN => false
  | VBool b => b
  | VNum x => negb (Qeq_bool x 0)
  | VStr s => negb (String.eqb s "")
  | VArr _ | VObj _ => true
  end.

(** [a || b] *)
Definition js_or (a b : jsval) : jsval := if truthy a then a else b.

(** ToNumber, [None] standing for NaN. The numeric parse of a string and
    the conversion of arrays are not modelled (they come out as NaN); the
    backend sends numbers in the numeric fields. *)
Definition to_num (v : jsval) : option Q :=
  match v with
  | VNull => Some 0%Q
  | VBool b => Some (if b then 1%Q else 0%Q)
  | VNum x => Some x
  | _ => None
  end.

(** [a > b] on numbers: false as soon as one side is NaN. *)
Definition js_gt (a b : jsval) : bool :=
  match to_num a, to_num b with
  | Some x, Some y => negb (Qle_bool x y)
  | _, _ => false
  end.

(** Math.round: the integer nearest to x, halves going up. *)
Definition math_round (v : jsval) : jsval :=
  match to_num v with
  | Some x => VNum (inject_Z (Qfloor (Qplus x (1 # 2))))
  | None => VNaN
  end.

Definition math_floor (v : jsval) : jsval :=
  match to_num v with
  | Some x => VNum (inject_Z (Qfloor x))
  | None => VNaN
  end.

(** Math.max of two arguments. *)
Definition math_max (a b : jsval) : jsval :=
  match to_num a, to_num b with
  | Some x, Some y => VNum (if Qle_bool x y then y else x)
  | _, _ => VNaN
  end.

Definition js_arith (f : Q → Q → Q) (a b : jsval) : jsval :=
  match to_num a, to_num b with
  | Some x, Some y => VNum (f x y)
  | _, _ => VNaN
  end.

(** Division: x/0 is an infinity or NaN, which the model folds into NaN. *)
Definition js_div (a b : jsval) : jsval :=
  match to_num a, to_num b with
  | Some x, Some y => if Qeq_bool y 0 then VNaN else VNum (x / y)%Q
  | _, _ => VNaN
  end.

(** ** Text

    The text put into the page is kept as the pieces of the template
    literal that built it: the decimal rendering of a number (default, or
    [toFixed]) and the locale rendering of a time are left symbolic. A
    string value is a literal piece. *)

Inductive piece : Type :=
| Lit (s : string)
| Val (v : jsval)
| Fixed (digits : nat) (x : Q)
| LocaleTime (t : Z).

Definition text := list piece.

Definition lit (s : string) : text := [Lit s].

Definition val (v : jsval) : text :=
  match v with
  | VStr s => [Lit s]
  | _ => [Val v]
  end.

(** ** Errors, requests and responses *)

(** A thrown [Error] object; only its [message] is ever read. *)
Record exn : Type := Error { err_message : string }.

(** The engine's own errors. Their wording differs between browsers. *)
Definition TypeError : exn := Error "TypeError".
Definition SyntaxError : exn := Error "SyntaxError".

Inductive req_body : Type :=
| NoBody
| JsonBody (v : jsval)                (* JSON.stringify(v) *)
| FormBody (files : list string).     (* a FormData holding the files *)

Record request : Type := Request {
  method : string;
  url : string;
  body : req_body
}.

Definition GET (u : string) : request := Request "GET" u NoBody.
Definition POST (u : string) (b : req_body) : request := Request "POST" u b.

(** What [fetch] resolves with. [payload] is the parsed body, [None] when
    the body is not JSON (then [response.json()] rejects). *)
Record response : Type := Response {
  ok : bool;
  status : Z;
  payload : option jsval
}.

(** How an awaited promise settles. *)
Inductive settled (A : Type) : Type :=
| Fulfilled (a : A)
| Rejected (e : exn).
Arguments Fulfilled {A} a.
Arguments Rejected {A} e.

Definition json_of (r : response) : settled jsval :=
  match payload r with
  | Some v => Fulfilled v
  | None => Rejected SyntaxError
  end.

(** ** The page state *)

Record console_line : Type := ConsoleLine {
  line_text : text;
  line_type : string
}.

(** A toast: the [div] that [showAlert] appends to the alert area. *)
Record toast : Type := Toast {
  toast_class : string;
  toast_text : text
}.

(** A status field: its text and its class attribute. *)
Record field : Type := Field {
  textContent : text;
  className : string
}.

(** A relay button of the toolbar: class attribute, the inline colour of
    its icon (when it has an [<i>] child) and its own inline background and
    border colour. An inline style never set is the empty string. *)
Record relay_button : Type := RelayButton {
  btn_className : string;
  icon_color : option string;
  background : string;
  borderColor : string
}.

(** Calls made without [await] whose body lies outside this development. *)
Inductive started_call : Type :=
| UpdateFiles
| LoadConfigTab (tabName : string).

(** The page-scoped variables of the two scripts. *)
Record Globals : Type := mkGlobals {
  selectedFile : option string;       (* null, or the selected name *)
  printStartTime : option Z;
  consoleLines : list console_line;
  currentConfigTab : string;
  configData : gmap string (gmap string jsval);
  relayToggling : bool
}.

(** The status panel. *)
Record Panel : Type := mkPanel {
  connectionStatus : field;
  printStatus : field;
  progressStatus : text;
  progressBar_width : text;
  zPosition : text
}.

(** The [disabled] flag of the six printer buttons. *)
Record Buttons : Type := mkButtons {
  connectBtn : bool;
  disconnectBtn : bool;
  startBtn : bool;
  pauseBtn : bool;
  resumeBtn : bool;
  stopBtn : bool
}.

(** The printing overlay: whether its class list holds [active], and its
    text fields. *)
Record Overlay : Type := mkOverlay {
  overlay_active : bool;
  printingFileName : text;
  printingLayerInfo : text;
  printingProgress : text;
  printingZPos : text;
  printingTimeLeft : text;
  printingBytes : text
}.

Record Dom : Type := mkDom {
  alertArea : list toast;             (* every toast appended, in order *)
  consoleArea : list console_line;
  configModal_active : bool;
  panel : Panel;
  buttons : Buttons;
  printingOverlay : Overlay;
  relayButtons : gmap string relay_button
}.

(** What left the page, and the clock. *)
Record World : Type := mkWorld {
  requests : list request;            (* every fetch issued, in order *)
  console_errors : list text;         (* console.error *)
  started : list started_call;
  unhandled : list exn;               (* rejections nobody caught *)
  now : Z                             (* Date.now() *)
}.

Record State : Type := mkState {
  globals : Globals;
  dom : Dom;
  world : World
}.

(** *** Field updates *)

Definition upd_globals (f : Globals → Globals) (s : State) : State :=
  mkState (f (globals s)) (dom s) (world s).
Definition upd_dom (f : Dom → Dom) (s : State) : State :=
  mkState (globals s) (f (dom s)) (world s).
Definition upd_world (f : World → World) (s : State) : State :=
  mkState (globals s) (dom s) (f (world s)).

Definition set_selectedFile (v : option string) : State → State :=
  upd_globals (λ g, mkGlobals v (printStartTime g) (consoleLines g)
                      (currentConfigTab g) (configData g) (relayToggling g)).
Definition set_printStartTime (v : option Z) : State → State :=
  upd_globals (λ g, mkGlobals (selectedFile g) v (consoleLines g)
                      (currentConfigTab g) (configData g) (relayToggling g)).
Definition set_consoleLines (v : list console_line) : State → State :=
  upd_globals (λ g, mkGlobals (selectedFile g) (printStartTime g) v
                      (currentConfigTab g) (configData g) (relayToggling g)).
Definition set_currentConfigTab (v : string) : State → State :=
  upd_globals (λ g, mkGlobals (selectedFile g) (printStartTime g)
                      (consoleLines g) v (configData g) (relayToggling g)).
Definition set_configData (v : gmap string (gmap string jsval)) : State → State :=
  upd_globals (λ g, mkGlobals (selectedFile g) (printStartTime g)
                      (consoleLines g) (currentConfigTab g) v (relayToggling g)).
Definition set_relayToggling (v : bool) : State → State :=
  upd_globals (λ g, mkGlobals (selectedFile g) (printStartTime g)
                      (consoleLines g) (currentConfigTab g) (configData g) v).

Definition set_alertArea (v : list toast) : State → State :=
  upd_dom (λ d, mkDom v (consoleArea d) (configModal_active d) (panel d)
                  (buttons d) (printingOverlay d) (relayButtons d)).
Definition set_consoleArea (v : list console_line) : State → State :=
  upd_dom (λ d, mkDom (alertArea d) v (configModal_active d) (panel d)
                  (buttons d) (printingOverlay d) (relayButtons d)).
Definition set_configModal_active (v : bool) : State → State :=
  upd_dom (λ d, mkDom (alertArea d) (consoleArea d) v (panel d)
                  (buttons d) (printingOverlay d) (relayButtons d)).
Definition upd_panel (f : Panel → Panel) : State → State :=
  upd_dom (λ d, mkDom (alertArea d) (consoleArea d) (configModal_active d)
                  (f (panel d)) (buttons d) (printingOverlay d) (relayButtons d)).
Definition set_buttons (v : Buttons) : State → State :=
  upd_dom (λ d, mkDom (alertArea d) (consoleArea d) (configModal_active d)
                  (panel d) v (printingOverlay d) (relayButtons d)).
Definition upd_overlay (f : Overlay → Overlay) : State → State :=
  upd_dom (λ d, mkDom (alertArea d) (consoleArea d) (configModal_active d)
                  (panel d) (buttons d) (f (printingOverlay d)) (relayButtons d)).
Definition set_relayButtons (v : gmap string relay_button) : State → State :=
  upd_dom (λ d, mkDom (alertArea d) (consoleArea d) (configModal_active d)
                  (panel d) (buttons d) (printingOverlay d) v).

Definition set_connectionStatus (v : field) : State → State :=
  upd_panel (λ p, mkPanel v (printStatus p) (progressStatus p)
                    (progressBar_width p) (zPosition p)).
Definition set_printStatus (v : field) : State → State :=
  upd_panel (λ p, mkPanel (connectionStatus p) v (progressStatus p)
                    (progressBar_width p) (zPosition p)).
Definition set_progressStatus (v : text) : State → State :=
  upd_panel (λ p, mkPanel (connectionStatus p) (printStatus p) v
                    (progressBar_width p) (zPosition p)).
Definition set_progressBar_width (v : text) : State → State :=
  upd_panel (λ p, mkPanel (connectionStatus p) (printStatus p)
                    (progressStatus p) v (zPosition p)).
Definition set_zPosition (v : text) : State → State :=
  upd_panel (λ p, mkPanel (connectionStatus p) (printStatus p)
                    (progressStatus p) (progressBar_width p) v).

Definition set_overlay_active (v : bool) : State → State :=
  upd_overlay (λ o, mkOverlay v (printingFileName o) (printingLayerInfo o)
      (printingProgress o) (printingZPos o) (printingTimeLeft o) (printingBytes o)).
Definition set_printingFileName (v : text) : State → State :=
  upd_overlay (λ o, mkOverlay (overlay_active o) v (printingLayerInfo o)
      (printingProgress o) (printingZPos o) (printingTimeLeft o) (printingBytes o)).
Definition set_printingLayerInfo (v : text) : State → State :=
  upd_overlay (λ o, mkOverlay (overlay_active o) (printingFileName o) v
      (printingProgress o) (printingZPos o) (printingTimeLeft o) (printingBytes o)).
Definition set_printingProgress (v : text) : State → State :=
  upd_overlay (λ o, mkOverlay (overlay_active o) (printingFileName o)
      (printingLayerInfo o) v (printingZPos o) (printingTimeLeft o) (printingBytes o)).
Definition set_printingZPos (v : text) : State → State :=
  upd_overlay (λ o, mkOverlay (overlay_active o) (printingFileName o)
      (printingLayerInfo o) (printingProgress o) v (printingTimeLeft o) (printingBytes o)).
Definition set_printingTimeLeft (v : text) : State → State :=
  upd_overlay (λ o, mkOverlay (overlay_active o) (printingFileName o)
      (printingLayerInfo o) (printingProgress o) (printingZPos o) v (printingBytes o)).
Definition set_printingBytes (v : text) : State → State :=
  upd_overlay (λ o, mkOverlay (overlay_active o) (printingFileName o)
      (printingLayerInfo o) (printingProgress o) (printingZPos o) (printingTimeLeft o) v).

Definition set_requests (v : list request) : State → State :=
  upd_world (λ w, mkWorld v (console_errors w) (started w) (unhandled w) (now w)).
Definition set_console_errors (v : list text) : State → State :=
  upd_world (λ w, mkWorld (requests w) v (started w) (unhandled w) (now w)).
Definition set_started (v : list started_call) : State → State :=
  upd_world (λ w, mkWorld (requests w) (console_errors w) v (unhandled w) (now w)).
Definition set_unhandled (v : list exn) : State → State :=
  upd_world (λ w, mkWorld (requests w) (console_errors w) (started w) v (now w)).
Definition set_now (v : Z) : State → State :=
  upd_world (λ w, mkWorld (requests w) (console_errors w) (started w) (unhandled w) v).

(** The page as it is when the scripts have been loaded and nothing has
    run yet. *)
Definition blank : field := Field [] "".

Definition initial : State :=
  mkState
    (mkGlobals None None [] "general" ∅ false)
    (mkDom [] [] false
       (mkPanel blank blank [] [] [])
       (mkButtons false false false false false false)
       (mkOverlay false [] [] [] [] [] [])
       ∅)
    (mkWorld [] [] [] [] 0).

(** ** Programs

    [Prog A] is the body of a function that returns an [A]: it reads and
    writes the state, throws, or awaits. An [await] node carries what is
    awaited and the rest of the function, which receives how the promise
    settled. *)

Inductive Prog (A : Type) : Type :=
| Ret (a : A)
| Throw (e : exn)
| Read (k : State → Prog A)
| Write (f : State → State) (k : Prog A)
| AwaitFetch (req : request) (k : settled response → Prog A)
| AwaitJson (r : response) (k : settled jsval → Prog A)
| AwaitAll (reqs : list request) (k : settled (list response) → Prog A).
Arguments Ret {A} a.
Arguments Throw {A} e.
Arguments Read {A} k.
Arguments Write {A} f k.
Arguments AwaitFetch {A} req k.
Arguments AwaitJson {A} r k.
Arguments AwaitAll {A} reqs k.

Fixpoint bind {A B : Type} (p : Prog A) (f : A → Prog B) : Prog B :=
  match p with
  | Ret a => f a
  | Throw e => Throw e
  | Read k => Read (λ s, bind (k s) f)
  | Write g k => Write g (bind k f)
  | AwaitFetch req k => AwaitFetch req (λ r, bind (k r) f)
  | AwaitJson r k => AwaitJson r (λ v, bind (k v) f)
  | AwaitAll reqs k => AwaitAll reqs (λ r, bind (k r) f)
  end.

#[export] Instance Prog_ret : MRet Prog := λ A a, Ret a.
#[export] Instance Prog_bind : MBind Prog := λ A B f p, bind p f.

(** [try { p } catch (error) { h error }] *)
Fixpoint try_catch {A : Type} (p : Prog A) (h : exn → Prog A) : Prog A :=
  match p with
  | Ret a => Ret a
  | Throw e => h e
  | Read k => Read (λ s, try_catch (k s) h)
  | Write g k => Write g (try_catch k h)
  | AwaitFetch req k => AwaitFetch req (λ r, try_catch (k r) h)
  | AwaitJson r k => AwaitJson r (λ v, try_catch (k v) h)
  | AwaitAll reqs k => AwaitAll reqs (λ r, try_catch (k r) h)
  end.

(** [try { p } finally { c }]: [c] runs whichever way [p] ends, and the
    way [p] ended stands. *)
Fixpoint try_finally {A : Type} (p : Prog A) (c : State → State) : Prog A :=
  match p with
  | Ret a => Write c (Ret a)
  | Throw e => Write c (Throw e)
  | Read k => Read (λ s, try_finally (k s) c)
  | Write g k => Write g (try_finally k c)
  | AwaitFetch req k => AwaitFetch req (λ r, try_finally (k r) c)
  | AwaitJson r k => AwaitJson r (λ v, try_finally (k v) c)
  | AwaitAll reqs k => AwaitAll reqs (λ r, try_finally (k r) c)
  end.

Definition throw {A : Type} (e : exn) : Prog A := Throw e.
Definition get {A : Type} (f : State → A) : Prog A := Read (λ s, Ret (f s)).
Definition modify (f : State → State) : Prog unit := Write f (Ret tt).

(** [await p]: the value the promise is fulfilled with, or its rejection
    thrown at the [await]. *)
Definition await {A : Type} (r : settled A) : Prog A :=
  match r with
  | Fulfilled a => Ret a
  | Rejected e => Throw e
  end.

(** [await fetch(...)], [await response.json()], and
    [await Promise.all([fetch(...), ...])]. *)
Definition fetch (req : request) : Prog response := AwaitFetch req await.
Definition json (r : response) : Prog jsval := AwaitJson r await.
Definition fetch_all (reqs : list request) : Prog (list response) :=
  AwaitAll reqs await.

(** [v.k]. Reading a property of [undefined] or [null] throws; an absent
    property reads as [undefined]. Of the built-in properties only [length]
    of an array is modelled. *)
Definition prop (v : jsval) (k : string) : Prog jsval :=
  match v with
  | VUndef | VNull => Throw TypeError
  | VObj o => Ret (default VUndef (o !! k))
  | VArr l => Ret (if String.eqb k "length"
                   then VNum (inject_Z (Z.of_nat (length l))) else VUndef)
  | _ => Ret VUndef
  end.

Notation "v .[ k ]" := (prop v k) (at level 1, left associativity,
                                   format "v .[ k ]").

(** [v.toFixed(d)]: only a number has the method. *)
Definition toFixed (v : jsval) (d : nat) : Prog text :=
  match v with
  | VNum x => Ret [Fixed d x]
  | VNaN => Ret [Lit "NaN"]
  | _ => Throw TypeError
  end.

(** ** Running programs *)

(** Where a call stands after it ran as far as it could. *)
Inductive paused (A : Type) : Type :=
| Done (a : A)
| Failed (e : exn)
| OnFetch (req : request) (k : settled response → Prog A)
| OnJson (r : response) (k : settled jsval → Prog A)
| OnAll (reqs : list request) (k : settled (list response) → Prog A).
Arguments Done {A} a.
Arguments Failed {A} e.
Arguments OnFetch {A} req k.
Arguments OnJson {A} r k.
Arguments OnAll {A} reqs k.

(** [fetch] sends its request at once; the promise settles later. *)
Definition issue (reqs : list request) (s : State) : State :=
  set_requests (requests (world s) ++ reqs) s.

(** The synchronous part of a program: up to its end or its next await. *)
Fixpoint run {A : Type} (p : Prog A) (s : State) : State * paused A :=
  match p with
  | Ret a => (s, Done a)
  | Throw e => (s, Failed e)
  | Read k => run (k s) s
  | Write f k => run k (f s)
  | AwaitFetch req k => (issue [req] s, OnFetch req k)
  | AwaitJson r k => (s, OnJson r k)
  | AwaitAll reqs k => (issue reqs s, OnAll reqs k)
  end.

(** What the network answers to one await of a call that runs alone. *)
Inductive reply : Type :=
| Net (r : settled response)
| NetAll (r : settled (list response)).

(** How a call ended: it returned, it threw (the promise of the async
    function is rejected and nobody handles it), or it still waits. *)
Inductive outcome (A : Type) : Type :=
| Returned (a : A)
| Threw (e : exn)
| Waiting.
Arguments Returned {A} a.
Arguments Threw {A} e.
Arguments Waiting {A}.

(** One call run to its end, nothing else running in between: the replies
    settle its fetches in order, and a body is parsed as soon as it is
    asked for. *)
Fixpoint exec {A : Type} (p : Prog A) (net : list reply) (s : State)
  : State * outcome A :=
  match p with
  | Ret a => (s, Returned a)
  | Throw e => (s, Threw e)
  | Read k => exec (k s) net s
  | Write f k => exec k net (f s)
  | AwaitFetch req k =>
      match net with
      | Net r :: net' => exec (k r) net' (issue [req] s)
      | _ => (issue [req] s, Waiting)
      end
  | AwaitJson r k => exec (k (json_of r)) net s
  | AwaitAll reqs k =>
      match net with
      | NetAll r :: net' => exec (k r) net' (issue reqs s)
      | _ => (issue reqs s, Waiting)
      end
  end.

(** ** The dashboard script (static/js/main.js) *)

(** [v === 'literal'] *)
Definition is_str (v : jsval) (s : string) : bool :=
  match v with
  | VStr s' => String.eqb s' s
  | _ => false
  end.

(** [!selectedFile]: no name, or the empty name. *)
Definition no_file (sel : option string) : bool :=
  match sel with
  | None => true
  | Some f => String.eqb f ""
  end.

(** [selectedFile] as a value: [null] or the name. *)
Definition file_val (sel : option string) : jsval :=
  match sel with
  | None => VNull
  | Some f => VStr f
  end.

(** [!printStartTime]: [null], or a clock reading of zero. *)
Definition no_time (t : option Z) : bool :=
  match t with
  | None => true
  | Some t => (t =? 0)%Z
  end.

Definition console_error (label : string) (what : text) : Prog unit :=
  modify (λ s, set_console_errors (console_errors (world s) ++ [Lit label :: what]) s).

(** A call whose promise is dropped: [updateFiles()], [loadConfigTab(..)]. *)
Definition start (c : started_call) : Prog unit :=
  modify (λ s, set_started (started (world s) ++ [c]) s).

(** [showAlert]: appends the toast. (The timer that takes the toast away
    four seconds later is not part of the model: [alertArea] keeps every
    toast that was shown.) *)
Definition showAlert (message : text) (type : string) : Prog unit :=
  modify (λ s, set_alertArea
                 (alertArea (dom s) ++ [Toast ("alert alert-" +:+ type) message]) s).

Definition updateConsole : Prog unit :=
  modify (λ s, set_consoleArea (consoleLines (globals s)) s).

Definition addConsoleMessage (message : text) (type : string) : Prog unit :=
  timestamp ← get (λ s, now (world s));
  let line := [Lit "["; LocaleTime timestamp; Lit "] "] ++ message in
  modify (λ s, set_consoleLines (consoleLines (globals s) ++ [ConsoleLine line type]) s);;
  (* Keep only last 50 messages *)
  lines ← get (λ s, consoleLines (globals s));
  (if bool_decide (50 < length lines)
   then modify (λ s, set_consoleLines (tail (consoleLines (globals s))) s)
   else mret tt);;
  updateConsole.

Definition openConfigModal : Prog unit :=
  modify (set_configModal_active true);;
  tab ← get (λ s, currentConfigTab (globals s));
  start (LoadConfigTab tab).

Definition closeConfigModal : Prog unit :=
  modify (set_configModal_active false).

Definition updateConfigValue (section key : string) (value : jsval) : Prog unit :=
  cd ← get (λ s, configData (globals s));
  (if bool_decide (cd !! section = None)
   then modify (λ s, set_configData (<[section := ∅]> (configData (globals s))) s)
   else mret tt);;
  modify (λ s, set_configData
                 (alter (λ sectionData, <[key := value]> sectionData) section
                        (configData (globals s))) s).

(** [o[key] = value] where [o] is any value: an object gets the property;
    on a primitive the assignment is dropped (the scripts are not strict),
    and a property added to an array leaves its elements as they are. *)
Definition set_prop (o : jsval) (key : string) (value : jsval) : jsval :=
  match o with
  | VObj m => VObj (<[key := value]> m)
  | _ => o
  end.

Definition updatePluginConfigValue (pluginName key : string) (value : jsval)
  : Prog unit :=
  cd ← get (λ s, configData (globals s));
  (if bool_decide (cd !! "plugins" = None)
   then modify (λ s, set_configData (<["plugins" := ∅]> (configData (globals s))) s)
   else mret tt);;
  cd ← get (λ s, configData (globals s));
  (if negb (truthy (default VUndef (default ∅ (cd !! "plugins") !! pluginName)))
   then modify (λ s, set_configData
                       (alter (λ plugins, <[pluginName := VObj ∅]> plugins) "plugins"
                              (configData (globals s))) s)
   else mret tt);;
  modify (λ s, set_configData
                 (alter (λ plugins, alter (λ o, set_prop o key value) pluginName plugins)
                        "plugins" (configData (globals s))) s).

Definition togglePlugin (pluginName : string) (enable : bool) : Prog unit :=
  try_catch
    (let action := if enable then "enable" else "disable" in
     response ← fetch (POST ("/api/config/plugins/" +:+ pluginName +:+ "/" +:+ action) NoBody);
     result ← json response;
     success ← result.["success"];
     if truthy success then
       message ← result.["message"];
       showAlert (val message) "success";;
       (* Reload plugins tab *)
       tab ← get (λ s, currentConfigTab (globals s));
       if String.eqb tab "plugins" then start (LoadConfigTab "plugins") else mret tt
     else
       error ← result.["error"];
       showAlert (val error) "error")
    (λ error,
       showAlert (lit "Error " ++ lit (if enable then "enabling" else "disabling")
                    ++ lit " plugin: " ++ lit (err_message error)) "error").

Definition reloadPlugin (pluginName : string) : Prog unit :=
  try_catch
    (response ← fetch (POST ("/api/config/plugins/" +:+ pluginName +:+ "/reload") NoBody);
     result ← json response;
     success ← result.["success"];
     if truthy success then
       message ← result.["message"];
       showAlert (val message) "success";;
       tab ← get (λ s, currentConfigTab (globals s));
       if String.eqb tab "plugins" then start (LoadConfigTab "plugins") else mret tt
     else
       error ← result.["error"];
       showAlert (val error) "error")
    (λ error,
       showAlert (lit "Error reloading plugin: " ++ lit (err_message error)) "error").

(** The requests of [saveConfig]. [Object.entries] lists an object in
    insertion order; [map_to_list] lists the map in an order of its own, so
    the order of the requests is not the browser's. *)
Definition app_request (section : string) (entry : string * jsval) : request :=
  POST "/api/config/app"
       (JsonBody (VObj (<["section" := VStr section]>
                         (<["key" := VStr entry.1]>
                           (<["value" := entry.2]> ∅))))).

Definition app_requests (cd : gmap string (gmap string jsval)) : list request :=
  map_to_list cd ≫= λ '(section, sectionData),
    if String.eqb section "plugins" then []
    else app_request section <$> map_to_list sectionData.

Definition plugin_request (entry : string * jsval) : request :=
  POST ("/api/config/plugins/" +:+ entry.1)
       (JsonBody (VObj (<["config" := entry.2]> ∅))).

Definition plugin_requests (cd : gmap string (gmap string jsval)) : list request :=
  match cd !! "plugins" with
  | Some plugins => plugin_request <$> map_to_list plugins
  | None => []
  end.

Definition saveConfig : Prog unit :=
  try_catch
    (cd ← get (λ s, configData (globals s));
     (* Save app config, then plugin configs *)
     let promises := app_requests cd ++ plugin_requests cd in
     fetch_all promises;;
     showAlert (lit "Configuration saved successfully") "success";;
     modify (set_configData ∅);; (* Clear pending changes *)
     closeConfigModal)
    (λ error,
       showAlert (lit "Error saving configuration: " ++ lit (err_message error)) "error").

(** [confirmed] is the answer the user gives to the [confirm] dialog. *)
Definition resetConfig (confirmed : bool) : Prog unit :=
  if negb confirmed then mret tt else
  try_catch
    (response ← fetch (POST "/api/config/reset"
                            (JsonBody (VObj (<["section" := VNull]> ∅))));
     result ← json response;
     success ← result.["success"];
     if truthy success then
       showAlert (lit "Configuration reset to defaults") "success";;
       modify (set_configData ∅);;
       tab ← get (λ s, currentConfigTab (globals s));
       start (LoadConfigTab tab)
     else
       showAlert (lit "Failed to reset configuration") "error")
    (λ error,
       showAlert (lit "Error resetting configuration: " ++ lit (err_message error)) "error").

Definition uploadFiles (files : list string) : Prog unit :=
  try_catch
    (showAlert (lit "Uploading...") "warning";;
     addConsoleMessage (lit "Uploading "
                          ++ val (VNum (inject_Z (Z.of_nat (length files))))
                          ++ lit " file(s)...") "";;
     response ← fetch (POST "/api/upload" (FormBody files));
     result ← json response;
     success ← result.["success"];
     if truthy success then
       total_uploaded ← result.["total_uploaded"];
       showAlert (lit "Uploaded " ++ val total_uploaded ++ lit " files successfully")
                 "success";;
       addConsoleMessage (lit "Successfully uploaded " ++ val total_uploaded
                            ++ lit " file(s)") "success";;
       total_errors ← result.["total_errors"];
       (if js_gt total_errors (VNum 0)
        then addConsoleMessage (val total_errors ++ lit " file(s) failed to upload")
                               "warning"
        else mret tt);;
       start UpdateFiles
     else
       showAlert (lit "Upload failed") "error";;
       addConsoleMessage (lit "Upload failed") "error")
    (λ error,
       showAlert (lit "Upload error: " ++ lit (err_message error)) "error";;
       addConsoleMessage (lit "Upload error: " ++ lit (err_message error)) "error").

(** *** Status poll *)

Definition showPrintingView (status : jsval) : Prog unit :=
  active ← get (λ s, overlay_active (printingOverlay (dom s)));
  if negb active then
    modify (set_overlay_active true);;
    print_status ← status.["print_status"];
    state ← print_status.["state"];
    started_at ← get (λ s, printStartTime (globals s));
    if is_str state "PRINTING" && no_time started_at then
      t ← get (λ s, now (world s));
      modify (set_printStartTime (Some t))
    else mret tt
  else mret tt.

Definition hidePrintingView : Prog unit :=
  modify (set_overlay_active false);;
  modify (set_printStartTime None).

Definition closePrintingView : Prog unit := hidePrintingView.

Definition updateButtons (status : jsval) : Prog unit :=
  connected ← status.["connected"];
  print_status ← status.["print_status"];
  state ← print_status.["state"];
  let connected := truthy connected in
  let printing := is_str state "PRINTING" in
  let paused := is_str state "PAUSED" in
  modify (λ s,
    set_buttons
      (mkButtons connected
                 (negb connected)
                 (negb connected || printing || paused
                  || no_file (selectedFile (globals s)))
                 (negb connected || negb printing)
                 (negb connected || negb paused)
                 (negb connected || (negb printing && negb paused))) s).

Definition js_mul : jsval → jsval → jsval := js_arith Qmult.
Definition js_sub : jsval → jsval → jsval := js_arith Qminus.

(** [a % b]: the remainder has the sign of the dividend. *)
Definition js_rem (a b : jsval) : jsval :=
  match to_num a, to_num b with
  | Some x, Some y =>
      if Qeq_bool y 0 then VNaN
      else let q := (x / y)%Q in
           let t := if Qle_bool 0 q then Qfloor q else Qceiling q in
           VNum (x - y * inject_Z t)%Q
  | _, _ => VNaN
  end.

Definition formatTime (seconds : jsval) : text :=
  let hours := math_floor (js_div seconds (VNum 3600)) in
  let minutes := math_floor (js_div (js_rem seconds (VNum 3600)) (VNum 60)) in
  if js_gt hours (VNum 0)
  then val hours ++ lit "h " ++ val minutes ++ lit "m"
  else val minutes ++ lit "m".

Definition updatePrintingOverlay (status : jsval) : Prog unit :=
  active ← get (λ s, overlay_active (printingOverlay (dom s)));
  if negb active then mret tt else
  (* File name *)
  selected_file ← status.["selected_file"];
  selected ← get (λ s, selectedFile (globals s));
  let fileName := js_or (js_or selected_file (file_val selected)) (VStr "Unknown File") in
  modify (set_printingFileName (val fileName));;
  (* Layer info *)
  print_status ← status.["print_status"];
  progress ← print_status.["progress_percent"];
  total_bytes ← print_status.["total_bytes"];
  let estimatedLayers := math_max (VNum 1) (math_round (js_div total_bytes (VNum 10000))) in
  let currentLayer := math_round (js_mul (js_div progress (VNum 100)) estimatedLayers) in
  modify (set_printingLayerInfo
            (lit "Layer " ++ val currentLayer ++ lit " of " ++ val estimatedLayers));;
  (* Progress *)
  shown ← toFixed progress 0;
  modify (set_printingProgress (shown ++ lit "%"));;
  (* Z Position *)
  z_position ← status.["z_position"];
  z ← toFixed z_position 2;
  modify (set_printingZPos z);;
  (* Time left (estimated) *)
  started_at ← get (λ s, printStartTime (globals s));
  t ← get (λ s, now (world s));
  (if negb (no_time started_at) && js_gt progress (VNum 1) then
     let elapsed :=
       js_div (VNum (inject_Z (t - default 0%Z started_at))) (VNum 1000) in
     let totalEstimated := js_mul (js_div elapsed progress) (VNum 100) in
     let remaining := math_max (VNum 0) (js_sub totalEstimated elapsed) in
     modify (set_printingTimeLeft (formatTime remaining))
   else
     modify (set_printingTimeLeft (lit "--")));;
  (* Data progress *)
  shown ← toFixed progress 0;
  modify (set_printingBytes (shown ++ lit "%")).

Definition updateStatus : Prog unit :=
  try_catch
    (response ← fetch (GET "/api/status");
     status ← json response;
     (* Connection *)
     connected ← status.["connected"];
     (if truthy connected
      then modify (set_connectionStatus
                     (Field (lit "Connected") "status-value status-connected"))
      else modify (set_connectionStatus
                     (Field (lit "Disconnected") "status-value status-disconnected")));;
     (* Print status *)
     print_status ← status.["print_status"];
     state ← print_status.["state"];
     modify (λ s, set_printStatus
                    (Field (val state) (className (printStatus (panel (dom s))))) s);;
     (if is_str state "PRINTING" then
        modify (λ s, set_printStatus
                       (Field (textContent (printStatus (panel (dom s))))
                              "status-value status-printing") s);;
        showPrintingView status
      else if is_str state "PAUSED" then
        modify (λ s, set_printStatus
                       (Field (textContent (printStatus (panel (dom s))))
                              "status-value status-warning") s);;
        showPrintingView status
      else
        modify (λ s, set_printStatus
                       (Field (textContent (printStatus (panel (dom s))))
                              "status-value") s);;
        if is_str state "IDLE" then hidePrintingView else mret tt);;
     (* Progress *)
     progress ← print_status.["progress_percent"];
     shown ← toFixed progress 1;
     modify (set_progressStatus (shown ++ lit "%"));;
     modify (set_progressBar_width (val progress ++ lit "%"));;
     (* Z position *)
     z_position ← status.["z_position"];
     z ← toFixed z_position 2;
     modify (set_zPosition (z ++ lit " mm"));;
     (* Update buttons *)
     updateButtons status;;
     (* Update printing overlay if visible *)
     updatePrintingOverlay status)
    (λ error, console_error "Status error:" (lit (err_message error))).

Definition cleanupFiles (confirmed : bool) : Prog unit :=
  if negb confirmed then mret tt else
  try_catch
    (addConsoleMessage (lit "Starting file cleanup...") "";;
     response ← fetch (POST "/api/cleanup_files"
                            (JsonBody (VObj (<["max_files" := VNum 50]>
                                              (<["max_age_days" := VNum 30]> ∅)))));
     result ← json response;
     success ← result.["success"];
     if truthy success then
       deleted_count ← result.["deleted_count"];
       showAlert (lit "Cleanup completed: " ++ val deleted_count ++ lit " files removed")
                 "success";;
       message ← result.["message"];
       addConsoleMessage (val message) "success";;
       start UpdateFiles
     else
       showAlert (lit "Cleanup failed") "error";;
       error ← result.["error"];
       addConsoleMessage (lit "Cleanup failed: " ++ val error) "error")
    (λ error,
       showAlert (lit "Cleanup error: " ++ lit (err_message error)) "error";;
       addConsoleMessage (lit "Cleanup error: " ++ lit (err_message error)) "error").

(** *** Printer actions *)

(** [result.success ? 'success' : 'error'] *)
Definition level (success : jsval) : string :=
  if truthy success then "success" else "error".

Definition connectPrinter : Prog unit :=
  addConsoleMessage (lit "Attempting to connect to printer...") "";;
  response ← fetch (POST "/api/connect" NoBody);
  result ← json response;
  message ← result.["message"];
  success ← result.["success"];
  error ← result.["error"];
  let message := js_or message (if truthy success then VStr "Connected" else error) in
  showAlert (val message) (level success);;
  addConsoleMessage (val message) (level success).

(** The shape shared by the actions that post and then show
    [result.message]: disconnect, print, pause, resume, stop, home, move,
    recover. *)
Definition post_and_report (announce : text) (req : request) : Prog unit :=
  addConsoleMessage announce "";;
  response ← fetch req;
  result ← json response;
  message ← result.["message"];
  success ← result.["success"];
  showAlert (val message) (level success);;
  addConsoleMessage (val message) (level success).

Definition disconnectPrinter : Prog unit :=
  post_and_report (lit "Disconnecting from printer...") (POST "/api/disconnect" NoBody).

Definition filename_body (filename : string) : req_body :=
  JsonBody (VObj (<["filename" := VStr filename]> ∅)).

Definition selectFile (filename : string) : Prog unit :=
  addConsoleMessage (lit "Selecting file: " ++ lit filename) "";;
  response ← fetch (POST "/api/select_file" (filename_body filename));
  result ← json response;
  success ← result.["success"];
  if truthy success then
    modify (set_selectedFile (Some filename));;
    showAlert (lit "Selected: " ++ lit filename) "success";;
    addConsoleMessage (lit "File selected: " ++ lit filename) "success"
  else
    error ← result.["error"];
    showAlert (val error) "error";;
    addConsoleMessage (lit "Failed to select file: " ++ val error) "error".

Definition printFile (filename : string) : Prog unit :=
  post_and_report (lit "Starting print: " ++ lit filename)
                  (POST "/api/print_file" (filename_body filename)).

Definition startPrint : Prog unit :=
  selected ← get (λ s, selectedFile (globals s));
  if no_file selected then
    showAlert (lit "No file selected") "warning";;
    addConsoleMessage (lit "Cannot start print - no file selected") "warning"
  else
    printFile (default "" selected).

Definition pausePrint : Prog unit :=
  post_and_report (lit "Pausing print...") (POST "/api/pause" NoBody).

Definition resumePrint : Prog unit :=
  post_and_report (lit "Resuming print...") (POST "/api/resume" NoBody).

Definition stopPrint (confirmed : bool) : Prog unit :=
  if negb confirmed then mret tt else
  post_and_report (lit "Stopping print...") (POST "/api/stop" NoBody).

Definition homeZ : Prog unit :=
  post_and_report (lit "Homing Z axis...") (POST "/api/home_z" NoBody).

Definition moveZ (distance : jsval) : Prog unit :=
  post_and_report (lit "Moving Z axis " ++ val distance ++ lit "mm...")
                  (POST "/api/move_z" (JsonBody (VObj (<["distance" := distance]> ∅)))).

Definition recoverUSB : Prog unit :=
  post_and_report (lit "Starting USB error recovery...")
                  (POST "/api/recover_usb_error" NoBody).

Definition deleteFile (filename : string) (confirmed : bool) : Prog unit :=
  if negb confirmed then mret tt else
  addConsoleMessage (lit "Deleting file: " ++ lit filename) "";;
  response ← fetch (POST "/api/delete_file" (filename_body filename));
  result ← json response;
  success ← result.["success"];
  if truthy success then
    start UpdateFiles;;
    showAlert (lit "File deleted") "success";;
    addConsoleMessage (lit "File deleted: " ++ lit filename) "success"
  else
    error ← result.["error"];
    showAlert (val error) "error";;
    addConsoleMessage (lit "Failed to delete file: " ++ val error) "error".

(** ** The relay controller script (relay_controller.js) *)

(** [.replace(/relay-(on|off)/g, '')]: every match, found from left to
    right and never overlapping, is cut out. [skip] counts the characters
    of the current match still to be dropped. *)
Fixpoint cut_marks (skip : nat) (s : string) : string :=
  match s with
  | "" => ""
  | String c s' =>
      match skip with
      | S n => cut_marks n s'
      | O => if String.prefix "relay-on" s then cut_marks 7 s'
             else if String.prefix "relay-off" s then cut_marks 8 s'
             else String c (cut_marks 0 s')
      end
  end.

(** White space for [trim], within ASCII: space, tab, line feed, vertical
    tab, form feed, carriage return. *)
Definition is_space (c : Ascii.ascii) : bool :=
  let n := Ascii.nat_of_ascii c in
  Nat.eqb n 32 || (Nat.leb 9 n && Nat.leb n 13).

Fixpoint trim_start (s : string) : string :=
  match s with
  | "" => ""
  | String c s' => if is_space c then trim_start s' else s
  end.

Fixpoint trim_end (s : string) : string :=
  match s with
  | "" => ""
  | String c s' =>
      match trim_end s' with
      | "" => if is_space c then "" else String c ""
      | t => String c t
      end
  end.

Definition trim (s : string) : string := trim_end (trim_start s).

(** The button as [updateRelayButtonState] leaves it. *)
Definition render_relay (state : jsval) (b : relay_button) : relay_button :=
  let on := truthy state in
  RelayButton
    (trim (cut_marks 0 (btn_className b)) +:+ " relay-" +:+ (if on then "on" else "off"))
    (match icon_color b with
     | Some _ => Some (if on then "#28a745" else "#c7c7c7")
     | None => None
     end)
    (if on then "#2d5a31" else "#3a3a3a")
    (if on then "#28a745" else "#555").

(** [relayButtons] maps a relay identifier to the toolbar button whose
    [onclick] attribute is [toggleRelay('<id>')], which is what the
    attribute selector finds. (Identifiers are taken to be free of the
    characters that end or escape a quoted CSS string.) *)
Definition updateRelayButtonState (relayId : string) (state : jsval) : Prog unit :=
  toolbarButton ← get (λ s, (relayButtons (dom s) !! relayId : option relay_button));
  match toolbarButton with
  | Some b =>
      modify (λ s, set_relayButtons
                     (<[relayId := render_relay state b]> (relayButtons (dom s))) s)
  | None => mret tt
  end.

Definition http_error (r : response) : exn :=
  Error ("HTTP error! status: " +:+ pretty (status r)).

Definition toggleRelay (relayId : string) : Prog unit :=
  toggling ← get (λ s, relayToggling (globals s));
  if (toggling : bool) then mret tt else (* Prevent multiple simultaneous toggles *)
  modify (set_relayToggling true);;
  try_finally
    (try_catch
       (response ← fetch (GET ("/api/plugins/relay_controller/toggle_relay/" +:+ relayId));
        (if negb (ok response) then throw (http_error response) else mret tt);;
        data ← json response;
        success ← data.["success"];
        if truthy success then
          state ← data.["state"];
          updateRelayButtonState relayId state;;
          message ← data.["message"];
          showAlert (val message) "success"
        else
          message ← data.["message"];
          showAlert (val (js_or message (VStr "Failed to toggle relay"))) "error")
       (λ error,
          console_error "Relay toggle error:" (lit (err_message error));;
          showAlert (lit "Network error - please try again") "error"))
    (set_relayToggling false).

Definition setRelayState (relayId : string) (state : bool) : Prog bool :=
  try_catch
    (let stateParam := if state then "on" else "off" in
     response ← fetch (GET ("/api/plugins/relay_controller/set_relay/" +:+ relayId
                              +:+ "/" +:+ stateParam));
     (if negb (ok response) then throw (http_error response) else mret tt);;
     data ← json response;
     success ← data.["success"];
     if truthy success then
       state ← data.["state"];
       updateRelayButtonState relayId state;;
       mret true
     else
       message ← data.["message"];
       console_error "Failed to set relay state:" (val message);;
       mret false)
    (λ error,
       console_error "Set relay state error:" (lit (err_message error));;
       mret false).

(** ** The event loop

    Everything runs on one thread. A call runs until its first [await] and
    is then parked; when the promise it waits for settles, the rest of the
    call runs until its next [await]. In between, other calls and other
    continuations run. The polling timers are calls like any other. *)

Inductive call : Type :=
| ConnectPrinter
| DisconnectPrinter
| SelectFile (filename : string)
| PrintFile (filename : string)
| StartPrint
| PausePrint
| ResumePrint
| StopPrint (confirmed : bool)
| HomeZ
| MoveZ (distance : jsval)
| RecoverUSB
| DeleteFile (filename : string) (confirmed : bool)
| UploadFiles (files : list string)
| CleanupFiles (confirmed : bool)
| TogglePlugin (pluginName : string) (enable : bool)
| ReloadPlugin (pluginName : string)
| SaveConfig
| ResetConfig (confirmed : bool)
| OpenConfigModal
| CloseConfigModal
| UpdateConfigValue (section key : string) (value : jsval)
| UpdatePluginConfigValue (pluginName key : string) (value : jsval)
| UpdateStatus
| ClosePrintingView
| AddConsoleMessage (message : text) (type : string)
| ToggleRelay (relayId : string)
| SetRelayState (relayId : string) (state : bool).

Definition handler (c : call) : Prog unit :=
  match c with
  | ConnectPrinter => connectPrinter
  | DisconnectPrinter => disconnectPrinter
  | SelectFile f => selectFile f
  | PrintFile f => printFile f
  | StartPrint => startPrint
  | PausePrint => pausePrint
  | ResumePrint => resumePrint
  | StopPrint a => stopPrint a
  | HomeZ => homeZ
  | MoveZ d => moveZ d
  | RecoverUSB => recoverUSB
  | DeleteFile f a => deleteFile f a
  | UploadFiles fs => uploadFiles fs
  | CleanupFiles a => cleanupFiles a
  | TogglePlugin p e => togglePlugin p e
  | ReloadPlugin p => reloadPlugin p
  | SaveConfig => saveConfig
  | ResetConfig a => resetConfig a
  | OpenConfigModal => openConfigModal
  | CloseConfigModal => closeConfigModal
  | UpdateConfigValue s k v => updateConfigValue s k v
  | UpdatePluginConfigValue p k v => updatePluginConfigValue p k v
  | UpdateStatus => updateStatus
  | ClosePrintingView => closePrintingView
  | AddConsoleMessage m t => addConsoleMessage m t
  | ToggleRelay r => toggleRelay r
  | SetRelayState r b => _ ← setRelayState r b; mret tt
  end.

(** The page and the calls made so far: slot [i] holds the parked rest of
    the i-th call, or [None] once that call has ended. *)
Record loop : Type := Loop {
  page : State;
  tasks : list (option (paused unit))
}.

(** A call that ends by throwing rejects its promise, which nobody
    handles. *)
Definition park (r : State * paused unit) : State * option (paused unit) :=
  match r with
  | (s, Done _) => (s, None)
  | (s, Failed e) => (set_unhandled (unhandled (world s) ++ [e]) s, None)
  | (s, w) => (s, Some w)
  end.

Inductive event : Type :=
| Call (c : call)                               (* a click, a key, a timer *)
| Fetched (i : nat) (r : settled response)      (* call i: its fetch settled *)
| Parsed (i : nat)                              (* call i: its body was read *)
| AllFetched (i : nat) (r : settled (list response))
| Tick (t : Z).                                 (* the clock moves to t *)

Definition resume (l : loop) (i : nat) (p : Prog unit) : loop :=
  let r := park (run p (page l)) in
  Loop r.1 (<[i := r.2]> (tasks l)).

Definition step (l : loop) (e : event) : loop :=
  match e with
  | Call c =>
      let r := park (run (handler c) (page l)) in
      Loop r.1 (tasks l ++ [r.2])
  | Fetched i r =>
      match tasks l !! i with
      | Some (Some (OnFetch _ k)) => resume l i (k r)
      | _ => l
      end
  | Parsed i =>
      match tasks l !! i with
      | Some (Some (OnJson r k)) => resume l i (k (json_of r))
      | _ => l
      end
  | AllFetched i r =>
      match tasks l !! i with
      | Some (Some (OnAll _ k)) => resume l i (k r)
      | _ => l
      end
  | Tick t => Loop (set_now t (page l)) (tasks l)
  end.

Definition steps (l : loop) (es : list event) : loop := foldl step l es.

(** The page just loaded: nothing has been called. *)
Definition boot : loop := Loop initial [].

(** The state a program leaves when it stops (at its end or at an await). *)
Definition after {A : Type} (p : Prog A) (s : State) : State := (run p s).1.

(** Console messages logged one after the other. *)
Definition log_all (messages : list (text * string)) (s : State) : State :=
  foldl (λ s m, after (addConsoleMessage m.1 m.2) s) s messages.

(** [status.print_status.state] of a status payload, [undefined] when the
    payload has no such path. *)
Definition state_of (status : jsval) : jsval :=
  match status with
  | VObj o =>
      match o !! "print_status" with
      | Some (VObj print_status) => default VUndef (print_status !! "state")
      | _ => VUndef
      end
  | _ => VUndef
  end.

(** The reply of a backend that answers with HTTP 200 and a JSON body. *)
Definition answers (v : jsval) : settled response :=
  Fulfilled (Response true 200 (Some v)).

(** ** Programs that keep to a rule

    [obeys W R J p]: on every path of [p], every write satisfies [W], every
    batch of requests sent at once satisfies [R], and [J] holds wherever a
    body is awaited. *)
Fixpoint obeys {A : Type} (W : (State → State) → Prop) (R : list request → Prop)
    (J : Prop) (p : Prog A) : Prop :=
  match p with
  | Ret _ | Throw _ => True
  | Read k => ∀ s, obeys W R J (k s)
  | Write f k => W f ∧ obeys W R J k
  | AwaitFetch req k => R [req] ∧ ∀ r, obeys W R J (k r)
  | AwaitJson _ k => J ∧ ∀ v, obeys W R J (k v)
  | AwaitAll reqs k => R reqs ∧ ∀ r, obeys W R J (k r)
  end.

(** The same for a parked call: whatever it is resumed with. *)
Definition obeys_paused {A : Type} (W : (State → State) → Prop)
    (R : list request → Prop) (J : Prop) (w : paused A) : Prop :=
  match w with
  | Done _ | Failed _ => True
  | OnFetch req k => R [req] ∧ ∀ r, obeys W R J (k r)
  | OnJson _ k => J ∧ ∀ v, obeys W R J (k v)
  | OnAll reqs k => R reqs ∧ ∀ r, obeys W R J (k r)
  end.

(** A write that leaves the projection [π] of the state as it is. *)
Definition keeps {B : Type} (π : State → B) (f : State → State) : Prop :=
  ∀ s, π (f s) = π s.

(** [stable π p]: nothing [p] does changes the projection [π] of the
    state, the sending of its requests included. *)
Definition stable {A B : Type} (π : State → B) (p : Prog A) : Prop :=
  obeys (keeps π) (λ reqs, keeps π (issue reqs)) True p.

(** Whether the printing overlay is shown: its class list holds [active]. *)
Definition overlay_shown (s : State) : bool :=
  overlay_active (printingOverlay (dom s)).

(** [v.k] of a value that is known to be an object; [undefined] for any
    other value. *)
Definition member (v : jsval) (k : string) : jsval :=
  match v with
  | VObj o => default VUndef (o !! k)
  | _ => VUndef
  end.

(** What a call added to the requests, to the toasts. *)
Definition sent_since (s s' : State) : list request :=
  drop (length (requests (world s))) (requests (world s')).

Definition toasts_since (s s' : State) : list toast :=
  drop (length (alertArea (dom s))) (alertArea (dom s')).

(** ** Toasts *)

Definition error_toast (message : text) : toast := Toast "alert alert-error" message.
Definition warning_toast (message : text) : toast := Toast "alert alert-warning" message.

(** [shows s r ts]: the call that led from page [s] to [r] ended normally
    (nothing was thrown out of it) and appended exactly the toasts [ts]. *)
Definition shows (s : State) (r : State * outcome unit) (ts : list toast) : Prop :=
  r.2 = Returned tt ∧ alertArea (dom r.1) = alertArea (dom s) ++ ts.

(** A fetch that fails at the network level with error [e]. *)
Definition fails (e : exn) : list reply := [Net (Rejected e)].

(** ** Relay button classes *)

Definition space_char : Ascii.ascii :=
  Ascii.Ascii false false false false false true false false.

(** No space in a pattern: a match cannot reach across a space. *)
Fixpoint spaceless (p : string) : bool :=
  match p with
  | "" => true
  | String a p' => negb (Ascii.eqb a space_char) && spaceless p'
  end.

(** The class that [updateRelayButtonState] appends. *)
Definition mark (on : bool) : string := " relay-" +:+ (if on then "on" else "off").

(** A toolbar with one relay button, which shows the relay as on. *)
Definition lamp_on : State :=
  set_relayButtons
    {["relay_1" := RelayButton "relay-toolbar-btn relay-on"
                     (Some "#28a745") "#2d5a31" "#28a745"]}
    initial.

(** A successful toggle answer carrying the new state. *)
Definition toggled (state : bool) : settled response :=
  answers (VObj (<["success" := VBool true]>
                  (<["state" := VBool state]>
                    (<["message" := VStr "Relay toggled"]> ∅)))).

(** [lamp_on] after two toggles, answered with on and then off. *)
Definition lamp_toggled_twice : State :=
  (exec (toggleRelay "relay_1") [Net (toggled false)]
        (exec (toggleRelay "relay_1") [Net (toggled true)] lamp_on).1).1.

(** ** The relay toggle guard *)

(** The flag that [toggleRelay] raises while its request is out. *)
Definition toggling (s : State) : bool := relayToggling (globals s).

(** A request to the toggle route of the relay plugin. *)
Definition is_toggle_request (req : request) : bool :=
  String.prefix "/api/plugins/relay_controller/toggle_relay/" (url req).

Definition no_toggle (reqs : list request) : Prop :=
  Forall (λ req, is_toggle_request req = false) reqs.

(** [quiet p]: [p] never writes the flag and never sends a toggle request. *)
Definition quiet {A : Type} (p : Prog A) : Prop :=
  obeys (keeps toggling) no_toggle True p.

Definition quiet_slot (t : option (paused unit)) : Prop :=
  match t with
  | None => True
  | Some w => obeys_paused (keeps toggling) no_toggle True w
  end.

(** The program is over. *)
Definition ends {A : Type} (p : Prog A) : Prop :=
  match p with
  | Ret _ | Throw _ => True
  | _ => False
  end.

(** [holding p]: [p] runs with the flag raised. On every path it leaves the
    flag alone and sends no toggle request, until it lowers the flag and
    ends at once. *)
Fixpoint holding {A : Type} (p : Prog A) : Prop :=
  match p with
  | Ret _ | Throw _ => False
  | Read k => ∀ s, holding (k s)
  | Write f k =>
      (keeps toggling f ∧ holding k) ∨ ((∀ s, toggling (f s) = false) ∧ ends k)
  | AwaitFetch req k => no_toggle [req] ∧ ∀ r, holding (k r)
  | AwaitJson _ k => ∀ v, holding (k v)
  | AwaitAll reqs k => no_toggle reqs ∧ ∀ r, holding (k r)
  end.

(** A parked call that holds the flag. *)
Definition holder (w : paused unit) : Prop :=
  match w with
  | Done _ | Failed _ => False
  | OnFetch _ k => ∀ r, holding (k r)
  | OnJson _ k => ∀ v, holding (k v)
  | OnAll _ k => ∀ r, holding (k r)
  end.

(** [slots_ok b ts]: with the flag at [b], the parked calls [ts] are all
    quiet, but for exactly one holder when [b] is true. *)
Inductive slots_ok : bool → list (option (paused unit)) → Prop :=
| slots_nil : slots_ok false []
| slots_quiet (b : bool) (t : option (paused unit)) (ts : list (option (paused unit))) :
    quiet_slot t → slots_ok b ts → slots_ok b (t :: ts)
| slots_holder (w : paused unit) (ts : list (option (paused unit))) :
    holder w → slots_ok false ts → slots_ok true (Some w :: ts).

(** The toggle requests that are out and not yet answered. *)
Definition waits_for_toggle (t : option (paused unit)) : bool :=
  match t with
  | Some (OnFetch req _) => is_toggle_request req
  | _ => false
  end.

Definition toggles_in_flight (l : loop) : nat :=
  length (List.filter waits_for_toggle (tasks l)).

(** The invariant of the event loop: see [slots_ok]. *)
Definition loop_ok (l : loop) : Prop := slots_ok (toggling (page l)) (tasks l).

(** ** Sample answers *)

(** The printer refuses: [success] false, with a message. *)
Definition printer_busy : settled response :=
  answers (VObj (<["success" := VBool false]>
                  (<["message" := VStr "Printer busy"]> ∅))).

(** The file is not there: [success] false, with an error text. *)
Definition file_missing : settled response :=
  answers (VObj (<["success" := VBool false]>
                  (<["error" := VStr "File not found"]> ∅))).

(** The relay plugin refuses to set a relay. *)
Definition relay_refused : settled response :=
  answers (VObj (<["success" := VBool false]>
                  (<["message" := VStr "GPIO busy"]> ∅))).

(** ** Sample pages *)

(** The page after one edit in the settings modal: the baud rate. *)
Definition one_edit : State :=
  after (updateConfigValue "printer" "baudrate" (VNum 9600)) initial.

(** The request that saves that edit. *)
Definition one_edit_request : request :=
  Request "POST" "/api/config/app"
    (JsonBody (VObj (<["section" := VStr "printer"]>
                      (<["key" := VStr "baudrate"]>
                        (<["value" := VNum 9600]> ∅))))).

(** The same page after a reset that the backend refused. *)
Definition reset_refused : State :=
  (exec (resetConfig true)
        [Net (answers (VObj (<["success" := VBool false]> ∅)))] one_edit).1.

(** ** Pending plugin edits *)

(** [configData.plugins[pluginName]], [undefined] when there is none. *)
Definition pending_plugin (s : State) (pluginName : string) : jsval :=
  default VUndef (default ∅ (configData (globals s) !! "plugins") !! pluginName).

(** ** Refreshing the relay buttons (relay_controller.js) *)

(** [Object.entries(v)]: the own enumerable properties of [v]. [null] and
    [undefined] have none to list and throw; a string lists its characters
    and an array its elements, under their indices. An object is listed in
    insertion order by the engine; [map_to_list] lists the map in an order
    of its own. *)
Definition entries (v : jsval) : Prog (list (string * jsval)) :=
  match v with
  | VUndef | VNull => Throw TypeError
  | VObj o => Ret (map_to_list o)
  | VArr l => Ret (imap (λ i x, (pretty i, x)) l)
  | VStr s => Ret (imap (λ i c, (pretty i, VStr (String c "")))
                        (String.list_ascii_of_string s))
  | _ => Ret []
  end.

(** [for (const x of xs) { f x }] *)
Fixpoint for_each {A : Type} (xs : list A) (f : A → Prog unit) : Prog unit :=
  match xs with
  | [] => mret tt
  | x :: xs' => f x;; for_each xs' f
  end.

Definition refreshRelayStates : Prog unit :=
  try_catch
    (response ← fetch (GET "/api/plugins/relay_controller/get_status");
     (if negb (ok response) then throw (http_error response) else mret tt);;
     data ← json response;
     (* Update all relay button states *)
     relays ← entries data;
     for_each relays (λ '(relayId, relayInfo),
       state ← relayInfo.["state"];
       updateRelayButtonState relayId state))
    (λ error, console_error "Relay status refresh error:" (lit (err_message error))).

(** ** What a relay call does to the toolbar *)

(** The reply is an HTTP success whose JSON body has a true [success]. *)
Definition reports_success (reply : settled response) : bool :=
  match reply with
  | Fulfilled r =>
      ok r && match payload r with
              | Some data => truthy (member data "success")
              | None => false
              end
  | Rejected _ => false
  end.

(** [data.state] of the body of a reply, [undefined] when there is none. *)
Definition reported_state (reply : settled response) : jsval :=
  match reply with
  | Fulfilled r => member (default VUndef (payload r)) "state"
  | Rejected _ => VUndef
  end.

(** The toolbar when the button of [relayId], if there is one, has been
    rendered for [state]. *)
Definition rendered (relayId : string) (state : jsval) (bs : gmap string relay_button)
  : gmap string relay_button :=
  match bs !! relayId with
  | Some b => <[relayId := render_relay state b]> bs
  | None => bs
  end.

(** The toolbar after the buttons of the listed relays have been rendered,
    one after the other. *)
Definition render_all (relays : list (string * jsval)) (bs : gmap string relay_button)
  : gmap string relay_button :=
  foldl (λ bs relay, rendered relay.1 (member relay.2 "state") bs) bs relays.

(** The answer lists a state object for each relay. *)
Definition lists_relays (data : gmap string jsval) : Prop :=
  ∀ relayId relayInfo, data !! relayId = Some relayInfo →
                       relayInfo ≠ VNull ∧ relayInfo ≠ VUndef.

(** The replies that make [refreshRelayStates] give up before it reaches a
    button: a rejected fetch, an HTTP error, a body that is not JSON or is
    [null]. *)
Definition refresh_fails (reply : settled response) : bool :=
  match reply with
  | Rejected _ => true
  | Fulfilled r =>
      negb (ok r) || match payload r with
                     | None | Some VNull => true
                     | Some _ => false
                     end
  end.

(** ** Invariants of the page

    [upholds I T p s]: run from page [s], the program [p] has [I] hold again
    each time it stops at an await and when it ends, provided [I] holds on
    the page it finds each time it is resumed; and it ends by throwing only
    if [T]. *)
Fixpoint upholds {A : Type} (I : State → Prop) (T : Prop) (p : Prog A) (s : State)
  : Prop :=
  match p with
  | Ret _ => I s
  | Throw _ => I s ∧ T
  | Read k => upholds I T (k s) s
  | Write f k => upholds I T k (f s)
  | AwaitFetch req k => I (issue [req] s) ∧ ∀ r s', I s' → upholds I T (k r) s'
  | AwaitJson _ k => I s ∧ ∀ v s', I s' → upholds I T (k v) s'
  | AwaitAll reqs k => I (issue reqs s) ∧ ∀ r s', I s' → upholds I T (k r) s'
  end.

(** [p] upholds [I] from every page on which [I] holds. *)
Definition safe {A : Type} (I : State → Prop) (T : Prop) (p : Prog A) : Prop :=
  ∀ s, I s → upholds I T p s.

(** A parked call whose rest is safe, whatever it is resumed with. *)
Definition safe_slot (I : State → Prop) (T : Prop) (t : option (paused unit)) : Prop :=
  match t with
  | Some (OnFetch _ k) => ∀ r, safe I T (k r)
  | Some (OnJson _ k) => ∀ v, safe I T (k v)
  | Some (OnAll _ k) => ∀ r, safe I T (k r)
  | _ => True
  end.

(** The calls an event makes: [allowed] holds of each. *)
Definition calls_only (allowed : call → Prop) (e : event) : Prop :=
  match e with
  | Call c => allowed c
  | _ => True
  end.

(** The projection [π] of the page has the value [v]. *)
Definition unchanged {B : Type} (π : State → B) (v : B) (s : State) : Prop := π s = v.

(** The rejections nobody handled are [u]. *)
Definition rejections (u : list exn) (s : State) : Prop := unhandled (world s) = u.

(** The calls whose awaits all lie inside a [try] with a [catch], and the
    calls that await nothing. *)
Definition guarded (c : call) : bool :=
  match c with
  | UploadFiles _ | CleanupFiles _ | TogglePlugin _ _ | ReloadPlugin _
  | SaveConfig | ResetConfig _ | UpdateStatus | ToggleRelay _ | SetRelayState _ _
  | OpenConfigModal | CloseConfigModal | UpdateConfigValue _ _ _
  | UpdatePluginConfigValue _ _ _ | ClosePrintingView | AddConsoleMessage _ _ => true
  | _ => false
  end.

(** The printer and file actions once they go to the backend: their fetch
    is not inside a [try]. *)
Definition unguarded (c : call) : bool :=
  match c with
  | ConnectPrinter | DisconnectPrinter | SelectFile _ | PrintFile _ | PausePrint
  | ResumePrint | StopPrint true | HomeZ | MoveZ _ | RecoverUSB | DeleteFile _ true => true
  | _ => false
  end.

(** The calls that write the pending edits. *)
Definition edits_config (c : call) : bool :=
  match c with
  | UpdateConfigValue _ _ _ | UpdatePluginConfigValue _ _ _ | SaveConfig
  | ResetConfig true => true
  | _ => false
  end.

Definition selects (c : call) : bool :=
  match c with
  | SelectFile _ => true
  | _ => false
  end.

Definition drives_relay (c : call) : bool :=
  match c with
  | ToggleRelay _ | SetRelayState _ _ => true
  | _ => false
  end.

(** The console buffer holds at most 50 lines and the console area shows
    exactly the buffer. *)
Definition console_ok (s : State) : Prop :=
  length (consoleLines (globals s)) ≤ 50
  ∧ consoleArea (dom s) = consoleLines (globals s).

(** What [updateButtons] guarantees of the six [disabled] flags: one of
    Connect and Disconnect is enabled, never both; while disconnected the
    four print buttons are disabled; Pause and Resume are never both
    enabled; Stop is enabled exactly when one of them is; and Start is
    never enabled together with Stop. *)
Definition buttons_consistent (b : Buttons) : Prop :=
  connectBtn b = negb (disconnectBtn b)
  ∧ (disconnectBtn b = true →
       startBtn b = true ∧ pauseBtn b = true ∧ resumeBtn b = true ∧ stopBtn b = true)
  ∧ (pauseBtn b = false → resumeBtn b = true)
  ∧ stopBtn b = pauseBtn b && resumeBtn b
  ∧ (startBtn b = false → stopBtn b = true).

Definition buttons_ok (s : State) : Prop := buttons_consistent (buttons (dom s)).

(** ** What a status poll shows *)

(** The error a call meets before it has a parsed body: the fetch is
    rejected, or the body is not JSON. *)
Definition unreadable (reply : settled response) : option exn :=
  match reply with
  | Rejected e => Some e
  | Fulfilled r =>
      match payload r with
      | None => Some SyntaxError
      | Some _ => None
      end
  end.

Definition is_num (v : jsval) : bool :=
  match v with
  | VNum _ | VNaN => true
  | _ => false
  end.

(** A status payload that [updateStatus] can render to its end: the
    progress and the Z position are numbers. *)
Definition complete_status (status : jsval) : bool :=
  is_num (member (member status "print_status") "progress_percent")
  && is_num (member status "z_position").

(** [v.toFixed(d)] of a number. *)
Definition fixed_text (v : jsval) (d : nat) : text :=
  match v with
  | VNum x => [Fixed d x]
  | _ => [Lit "NaN"]
  end.

(** The status panel and the printer buttons of a page. *)
Definition status_view (s : State) : Panel * Buttons := (panel (dom s), buttons (dom s)).

(** The panel and the buttons that a status payload calls for, with
    [selected] the file selected on the page. *)
Definition status_display (status : jsval) (selected : option string) : Panel * Buttons :=
  let print_status := member status "print_status" in
  let state := member print_status "state" in
  let progress := member print_status "progress_percent" in
  let connected := truthy (member status "connected") in
  let printing := is_str state "PRINTING" in
  let paused := is_str state "PAUSED" in
  (mkPanel
     (if connected
      then Field (lit "Connected") "status-value status-connected"
      else Field (lit "Disconnected") "status-value status-disconnected")
     (Field (val state)
            (if printing then "status-value status-printing"
             else if paused then "status-value status-warning"
             else "status-value"))
     (fixed_text progress 1 ++ lit "%")
     (val progress ++ lit "%")
     (fixed_text (member status "z_position") 2 ++ lit " mm"),
   mkButtons connected
             (negb connected)
             (negb connected || printing || paused || no_file selected)
             (negb connected || negb printing)
             (negb connected || negb paused)
             (negb connected || (negb printing && negb paused))).

(** The overlay flag and the start time of the print clock. *)
Definition print_clock (s : State) : bool * option Z :=
  (overlay_active (printingOverlay (dom s)), printStartTime (globals s)).

(** ** More sample answers *)

(** A status payload that carries only the state of the print. *)
Definition in_state (state : string) : jsval :=
  VObj (<["print_status" := VObj (<["state" := VStr state]> ∅)]> ∅).

(** A full status payload: connected, printing at 42.5 %, Z at 12.3 mm. *)
Definition printing_status : jsval :=
  VObj (<["connected" := VBool true]>
         (<["print_status" := VObj (<["state" := VStr "PRINTING"]>
                                     (<["progress_percent" := VNum (85 # 2)]> ∅))]>
           (<["z_position" := VNum (123 # 10)]> ∅))).

(** The status of relay 1 alone, as the relay plugin reports it. *)
Definition relay_1_is (state : bool) : gmap string jsval :=
  {["relay_1" := VObj (<["state" := VBool state]> ∅)]}.

(** * Properties *)

(** ** Reading the state after a synchronous run *)

Lemma no_file_named (f : string) : f ≠ "" → no_file (Some f) = false.
Proof.
  intros Hf. unfold no_file. apply String.eqb_neq. exact Hf.
Qed.

(** ** Programs that keep to a rule *)

Section Obedience.
Context (W : (State → State) → Prop) (R : list request → Prop) (J : Prop).

Lemma obeys_bind {A C : Type} (p : Prog A) (f : A → Prog C) :
  obeys W R J p → (∀ a, obeys W R J (f a)) → obeys W R J (p ≫= f).
Proof.
  intros Hp Hf. unfold mbind, Prog_bind.
  induction p as [a|e|k IH|g k IH|req k IH|r k IH|reqs k IH]; cbn in *.
  - apply Hf.
  - exact I.
  - intros s. apply IH, Hp.
  - split; [apply Hp | apply IH, Hp].
  - split; [apply Hp | intros r; apply IH, Hp].
  - split; [apply Hp | intros v; apply IH, Hp].
  - split; [apply Hp | intros r; apply IH, Hp].
Qed.

Lemma obeys_try_catch {A : Type} (p : Prog A) (h : exn → Prog A) :
  obeys W R J p → (∀ e, obeys W R J (h e)) → obeys W R J (try_catch p h).
Proof.
  intros Hp Hh.
  induction p as [a|e|k IH|g k IH|req k IH|r k IH|reqs k IH]; cbn in *.
  - exact I.
  - apply Hh.
  - intros s. apply IH, Hp.
  - split; [apply Hp | apply IH, Hp].
  - split; [apply Hp | intros r; apply IH, Hp].
  - split; [apply Hp | intros v; apply IH, Hp].
  - split; [apply Hp | intros r; apply IH, Hp].
Qed.

Lemma obeys_try_finally {A : Type} (p : Prog A) (c : State → State) :
  obeys W R J p → W c → obeys W R J (try_finally p c).
Proof.
  intros Hp Hc.
  induction p as [a|e|k IH|g k IH|req k IH|r k IH|reqs k IH]; cbn in *.
  - split; [exact Hc | exact I].
  - split; [exact Hc | exact I].
  - intros s. apply IH, Hp.
  - split; [apply Hp | apply IH, Hp].
  - split; [apply Hp | intros r; apply IH, Hp].
  - split; [apply Hp | intros v; apply IH, Hp].
  - split; [apply Hp | intros r; apply IH, Hp].
Qed.

Lemma obeys_await {A : Type} (r : settled A) : obeys W R J (await r).
Proof. destruct r; exact I. Qed.

Lemma obeys_prop (v : jsval) (k : string) : obeys W R J v.[k].
Proof. destruct v; exact I. Qed.

Lemma obeys_toFixed (v : jsval) (d : nat) : obeys W R J (toFixed v d).
Proof. destruct v; exact I. Qed.

(** What a rule on the writes and the requests says about a run: a
    projection that every allowed write and every allowed batch of requests
    keeps is the same after the run, and the parked rest keeps to the
    rule. *)
Lemma obeys_run {A B : Type} (π : State → B) (p : Prog A) (s : State) :
  (∀ f, W f → keeps π f) → (∀ reqs, R reqs → keeps π (issue reqs)) →
  obeys W R J p →
  π (run p s).1 = π s ∧ obeys_paused W R J (run p s).2.
Proof.
  intros HW HR. revert s.
  induction p as [a|e|k IH|g k IH|req k IH|r k IH|reqs k IH]; intros s Hp; cbn in *.
  - split; [reflexivity | exact I].
  - split; [reflexivity | exact I].
  - apply IH, Hp.
  - destruct Hp as [Hg Hk]. destruct (IH (g s) Hk) as [H1 H2].
    split; [rewrite H1; by apply HW | exact H2].
  - split; [by apply HR, Hp | exact Hp].
  - split; [reflexivity | exact Hp].
  - split; [by apply HR, Hp | exact Hp].
Qed.

Lemma obeys_exec {A B : Type} (π : State → B) (p : Prog A) (net : list reply)
    (s : State) :
  (∀ f, W f → keeps π f) → (∀ reqs, R reqs → keeps π (issue reqs)) →
  obeys W R J p →
  π (exec p net s).1 = π s.
Proof.
  intros HW HR. revert net s.
  induction p as [a|e|k IH|g k IH|req k IH|r k IH|reqs k IH]; intros net s Hp;
    cbn in *; try reflexivity.
  - apply IH, Hp.
  - destruct Hp as [Hg Hk]. rewrite (IH net (g s) Hk). by apply HW.
  - destruct Hp as [Hreq Hk]. destruct net as [|[r|r] net]; cbn; try by apply HR.
    rewrite (IH r net _ (Hk r)). by apply HR.
  - apply IH, Hp.
  - destruct Hp as [Hreq Hk]. destruct net as [|[r|r] net]; cbn; try by apply HR.
    rewrite (IH r net _ (Hk r)). by apply HR.
Qed.
End Obedience.

Lemma stable_exec {A B : Type} (π : State → B) (p : Prog A) (net : list reply)
    (s : State) :
  stable π p → π (exec p net s).1 = π s.
Proof. apply obeys_exec; auto. Qed.

(** Proves [obeys W R J p] (so [stable π p]) for a program written with the
    combinators. *)
Ltac head_of x := lazymatch x with ?f _ => head_of f | _ => x end.

Ltac obeys_step :=
  lazymatch goal with
  | |- True => exact I
  | |- _ ∧ _ => split
  | |- ∀ _, _ => intro
  | |- _ = _ => reflexivity
  | |- Forall _ [] => constructor
  | |- Forall _ (_ :: _) => constructor
  | |- no_toggle _ => unfold no_toggle
  | |- quiet _ => unfold quiet
  | |- stable _ _ => unfold stable
  | |- keeps _ _ => unfold keeps
  | |- obeys _ _ _ (mbind _ _) => apply obeys_bind
  | |- obeys _ _ _ (bind _ _) => apply obeys_bind
  | |- obeys _ _ _ (try_catch _ _) => apply obeys_try_catch
  | |- obeys _ _ _ (try_finally _ _) => apply obeys_try_finally
  | |- obeys _ _ _ (prop _ _) => apply obeys_prop
  | |- obeys _ _ _ (toFixed _ _) => apply obeys_toFixed
  | |- obeys _ _ _ (await _) => apply obeys_await
  | |- obeys _ _ _ (if ?b then _ else _) => destruct b
  | |- obeys _ _ _ (match ?x with _ => _ end) => destruct x
  | |- obeys _ _ _ ?p => first [progress cbn | let h := head_of p in unfold h]
  end.

Ltac obeys_tac := repeat obeys_step.

(** ** Starting a print *)

(** C10. With no file selected ([selectedFile] is [null]), [startPrint]
    ends at once without a request and with the single warning toast
    "No file selected"; with a file selected it is [printFile] of that
    name: the same requests, the same effects and the same result, whatever
    the network answers. *)
Theorem startPrint_guard (s : State) :
  (selectedFile (globals s) = None →
     (run startPrint s).2 = Done tt
     ∧ requests (world (run startPrint s).1) = requests (world s)
     ∧ alertArea (dom (run startPrint s).1)
       = alertArea (dom s) ++ [Toast "alert alert-warning" [Lit "No file selected"]])
  ∧ (∀ f : string, selectedFile (globals s) = Some f → f ≠ "" →
       run startPrint s = run (printFile f) s
       ∧ ∀ net : list reply, exec startPrint net s = exec (printFile f) net s).
Proof.
  split.
  - intros Hsel. unfold startPrint. cbn. rewrite Hsel. cbn.
    case_bool_decide; cbn; auto.
  - intros f Hsel Hf. unfold startPrint. cbn. rewrite Hsel.
    rewrite (no_file_named f Hf). cbn. split; [reflexivity | intros net; reflexivity].
Qed.

Lemma startPrint_guard_witness :
  (run startPrint initial).2 = Done tt
  ∧ run startPrint (set_selectedFile (Some "cube.ctb") initial)
    = run (printFile "cube.ctb") (set_selectedFile (Some "cube.ctb") initial).
Proof.
  split.
  - apply (startPrint_guard initial). reflexivity.
  - apply (startPrint_guard (set_selectedFile (Some "cube.ctb") initial)).
    + reflexivity.
    + discriminate.
Defined.

(** ** The console buffer *)

Lemma addConsoleMessage_lines (message : text) (type : string) (s : State) :
  consoleLines (globals (after (addConsoleMessage message type) s))
  = let line := ConsoleLine ([Lit "["; LocaleTime (now (world s)); Lit "] "] ++ message) type in
    if bool_decide (50 < length (consoleLines (globals s) ++ [line]))
    then tail (consoleLines (globals s) ++ [line])
    else consoleLines (globals s) ++ [line].
Proof.
  unfold after, addConsoleMessage. cbn. case_bool_decide; reflexivity.
Qed.

Lemma addConsoleMessage_keeps_bound (message : text) (type : string) (s : State) :
  length (consoleLines (globals s)) ≤ 50 →
  length (consoleLines (globals (after (addConsoleMessage message type) s))) ≤ 50.
Proof.
  intros Hlen. rewrite addConsoleMessage_lines. cbn zeta.
  case_bool_decide as Hover.
  - destruct (consoleLines (globals s)) as [|l0 ls]; cbn in *; [lia |].
    rewrite length_app. cbn. lia.
  - lia.
Qed.

Lemma log_all_bound (messages : list (text * string)) (s : State) :
  length (consoleLines (globals s)) ≤ 50 →
  length (consoleLines (globals (log_all messages s))) ≤ 50.
Proof.
  revert s. induction messages as [|m messages IH]; intros s Hlen.
  - exact Hlen.
  - cbn. apply IH. apply addConsoleMessage_keeps_bound. exact Hlen.
Qed.

(** C8. The console keeps at most 50 lines. After any sequence of
    [addConsoleMessage] calls on the freshly loaded page the buffer holds
    at most 50 lines; a call made when it holds fewer than 50 appends its
    line, a call made when it holds 50 drops the oldest line and appends
    its own; and the pending or saved settings ([console_max_lines] among
    them) have no part in it. *)
Theorem console_buffer_bound :
  (∀ messages : list (text * string),
     length (consoleLines (globals (log_all messages initial))) ≤ 50)
  ∧ (∀ (s : State) (message : text) (type : string),
       let line := ConsoleLine ([Lit "["; LocaleTime (now (world s)); Lit "] "]
                                  ++ message) type in
       let s' := after (addConsoleMessage message type) s in
       (run (addConsoleMessage message type) s).2 = Done tt
       ∧ (length (consoleLines (globals s)) < 50 →
            consoleLines (globals s') = consoleLines (globals s) ++ [line])
       ∧ (length (consoleLines (globals s)) = 50 →
            consoleLines (globals s') = tail (consoleLines (globals s)) ++ [line])
       ∧ (∀ cd : gmap string (gmap string jsval),
            consoleLines (globals (after (addConsoleMessage message type)
                                         (set_configData cd s)))
            = consoleLines (globals s'))).
Proof.
  split.
  - intros messages. apply log_all_bound. cbn. lia.
  - intros s message type line s'. subst s'. repeat split.
    + unfold addConsoleMessage. cbn. case_bool_decide; reflexivity.
    + intros Hlen. rewrite addConsoleMessage_lines. cbn zeta.
      rewrite bool_decide_eq_false_2; [reflexivity |].
      rewrite length_app. cbn. lia.
    + intros Hlen. rewrite addConsoleMessage_lines. cbn zeta.
      rewrite bool_decide_eq_true_2.
      * destruct (consoleLines (globals s)); [discriminate | reflexivity].
      * rewrite length_app. cbn. lia.
    + intros cd. rewrite !addConsoleMessage_lines. reflexivity.
Qed.

Lemma console_buffer_bound_witness :
  consoleLines (globals (after (addConsoleMessage (lit "ready") "info") initial))
  = [ConsoleLine [Lit "["; LocaleTime 0; Lit "] "; Lit "ready"] "info"].
Proof.
  destruct console_buffer_bound as [_ Hcall].
  destruct (Hcall initial (lit "ready") "info") as (_ & Hfew & _).
  apply Hfew. cbn. lia.
Defined.

(** ** The printing overlay *)

(** C4. Whatever the page showed before, once [updateStatus] has processed
    a status payload whose [print_status.state] is "PRINTING" the printing
    overlay has the class [active], and once it has processed one whose
    state is "IDLE" the overlay does not have it. *)
Theorem overlay_follows_state (s : State) (r : response) (status : jsval) :
  payload r = Some status →
  (state_of status = VStr "PRINTING" →
     overlay_shown (exec updateStatus [Net (Fulfilled r)] s).1 = true)
  ∧ (state_of status = VStr "IDLE" →
       overlay_shown (exec updateStatus [Net (Fulfilled r)] s).1 = false).
Proof.
  intros Hp. unfold updateStatus. cbn. unfold json_of. rewrite Hp. cbn.
  destruct status as [| | | | | |? |o];
    try (split; intros Hs; discriminate Hs). cbn.
  destruct (o !! "print_status") as [[| | | | | |? |ps]|] eqn:Hps;
    try (split; intros Hs; discriminate Hs). cbn.
  destruct (ps !! "state") as [st|] eqn:Hst; cbn;
    [| split; intros Hs; discriminate Hs].
  split; intros Hs; subst st; cbn.
  - destruct (truthy _); cbn.
    all: destruct (overlay_active (printingOverlay (dom s))) eqn:Hact; cbn.
    all: try destruct (no_time _); cbn.
    all: rewrite (stable_exec overlay_shown) by obeys_tac.
    all: first [exact Hact | reflexivity].
  - destruct (truthy _); cbn.
    all: rewrite (stable_exec overlay_shown) by obeys_tac.
    all: reflexivity.
Qed.

Lemma overlay_follows_state_witness :
  overlay_shown
    (exec updateStatus
       [Net (answers (VObj (<["print_status" :=
                               VObj (<["state" := VStr "PRINTING"]> ∅)]> ∅)))]
       initial).1 = true.
Proof.
  eapply overlay_follows_state; reflexivity.
Defined.

(** ** Pending configuration edits *)

(** The object a request carries as its JSON body. *)
Lemma json_body_inj (u1 u2 : string) (m1 m2 : gmap string jsval) :
  POST u1 (JsonBody (VObj m1)) = POST u2 (JsonBody (VObj m2)) → u1 = u2 ∧ m1 = m2.
Proof.
  intros Heq.
  pose proof (f_equal url Heq) as Hu.
  pose proof (f_equal (λ r, match body r with
                            | JsonBody (VObj m) => m
                            | _ => ∅
                            end) Heq) as Hm.
  split; [exact Hu | exact Hm].
Qed.

Lemma app_request_inj (section1 section2 : string) (e1 e2 : string * jsval) :
  app_request section1 e1 = app_request section2 e2 → section1 = section2 ∧ e1 = e2.
Proof.
  unfold app_request. intros [_ Hm]%json_body_inj.
  pose proof (f_equal (λ m : gmap string jsval, m !! "section") Hm) as Hs.
  pose proof (f_equal (λ m : gmap string jsval, m !! "key") Hm) as Hk.
  pose proof (f_equal (λ m : gmap string jsval, m !! "value") Hm) as Hv.
  cbn beta in Hs, Hk, Hv.
  rewrite !lookup_insert_eq in Hs.
  rewrite !(lookup_insert_ne _ "section" "key"), !lookup_insert_eq in Hk by done.
  rewrite !(lookup_insert_ne _ "section" "value"),
          !(lookup_insert_ne _ "key" "value"), !lookup_insert_eq in Hv by done.
  destruct e1 as [k1 v1], e2 as [k2 v2]. cbn [fst snd] in *. by simplify_eq.
Qed.

Lemma plugin_request_inj (e1 e2 : string * jsval) :
  plugin_request e1 = plugin_request e2 → e1 = e2.
Proof.
  unfold plugin_request. intros [Hu Hm]%json_body_inj.
  pose proof (f_equal (λ m : gmap string jsval, m !! "config") Hm) as Hc.
  cbn beta in Hc. rewrite !lookup_insert_eq in Hc.
  destruct e1 as [n1 c1], e2 as [n2 c2]. cbn [fst snd] in *.
  apply (inj (String.append "/api/config/plugins/")) in Hu. by simplify_eq.
Qed.

Lemma elem_of_app_requests (cd : gmap string (gmap string jsval)) (req : request) :
  req ∈ app_requests cd ↔
  ∃ section sectionData key value,
    section ≠ "plugins" ∧ cd !! section = Some sectionData
    ∧ sectionData !! key = Some value ∧ req = app_request section (key, value).
Proof.
  unfold app_requests. rewrite list_elem_of_bind. split.
  - intros ([section sectionData] & Hin & Hcd).
    apply elem_of_map_to_list in Hcd.
    destruct (String.eqb section "plugins") eqn:Hsec; [by apply elem_of_nil in Hin |].
    apply String.eqb_neq in Hsec.
    apply list_elem_of_fmap in Hin as ([key value] & -> & Hin).
    apply elem_of_map_to_list in Hin. by exists section, sectionData, key, value.
  - intros (section & sectionData & key & value & Hsec & Hcd & Hkey & ->).
    exists (section, sectionData). split; [| by apply elem_of_map_to_list].
    apply String.eqb_neq in Hsec. rewrite Hsec.
    apply list_elem_of_fmap_2. by apply elem_of_map_to_list.
Qed.

Lemma elem_of_plugin_requests (cd : gmap string (gmap string jsval)) (req : request) :
  req ∈ plugin_requests cd ↔
  ∃ plugins pluginName pluginConfig,
    cd !! "plugins" = Some plugins ∧ plugins !! pluginName = Some pluginConfig
    ∧ req = plugin_request (pluginName, pluginConfig).
Proof.
  unfold plugin_requests. split.
  - destruct (cd !! "plugins") as [plugins|]; [| by intros Hin%elem_of_nil].
    intros ([pluginName pluginConfig] & -> & Hin)%list_elem_of_fmap.
    apply elem_of_map_to_list in Hin. by exists plugins, pluginName, pluginConfig.
  - intros (plugins & pluginName & pluginConfig & -> & Hin & ->).
    apply list_elem_of_fmap_2. by apply elem_of_map_to_list.
Qed.

Lemma NoDup_app_requests (cd : gmap string (gmap string jsval)) :
  NoDup (app_requests cd).
Proof.
  unfold app_requests. apply NoDup_bind; [| | apply NoDup_map_to_list].
  - intros [sec1 sd1] [sec2 sd2] req Hin1 Hin2 Hreq1 Hreq2.
    apply elem_of_map_to_list in Hin1, Hin2.
    destruct (String.eqb sec1 "plugins"); [by apply elem_of_nil in Hreq1 |].
    destruct (String.eqb sec2 "plugins"); [by apply elem_of_nil in Hreq2 |].
    apply list_elem_of_fmap in Hreq1 as (e1 & -> & _).
    apply list_elem_of_fmap in Hreq2 as (e2 & Heq & _).
    apply app_request_inj in Heq as [-> _]. by simplify_eq.
  - intros [section sectionData] _.
    destruct (String.eqb section "plugins"); [constructor |].
    apply NoDup_fmap_2_strong; [| apply NoDup_map_to_list].
    intros e1 e2 _ _ Heq. by apply app_request_inj in Heq as [_ ->].
Qed.

Lemma NoDup_plugin_requests (cd : gmap string (gmap string jsval)) :
  NoDup (plugin_requests cd).
Proof.
  unfold plugin_requests. destruct (cd !! "plugins") as [plugins|]; [| constructor].
  apply NoDup_fmap_2_strong; [| apply NoDup_map_to_list].
  intros e1 e2 _ _ Heq. by apply plugin_request_inj.
Qed.

Lemma NoDup_saved (cd : gmap string (gmap string jsval)) :
  NoDup (app_requests cd ++ plugin_requests cd).
Proof.
  apply NoDup_app. split_and!.
  - apply NoDup_app_requests.
  - intros req (? & ? & ? & ? & _ & _ & _ & ->)%elem_of_app_requests
               (? & ? & ? & _ & _ & Heq)%elem_of_plugin_requests.
    discriminate Heq.
  - apply NoDup_plugin_requests.
Qed.

Lemma saveConfig_resolved (s : State) (rs : list response) :
  exec saveConfig [NetAll (Fulfilled rs)] s
  = (set_configModal_active false
       (set_configData ∅
          (set_alertArea
             (alertArea (dom s)
                ++ [Toast "alert alert-success" [Lit "Configuration saved successfully"]])
             (issue (app_requests (configData (globals s))
                       ++ plugin_requests (configData (globals s))) s))),
     Returned tt).
Proof. reflexivity. Qed.

(** C6. [saveConfig] flushes every pending edit. When all its requests
    resolve, what it has sent is exactly, and without repetition: one POST
    to /api/config/app for each (section, key, value) of the sections other
    than [plugins], and one POST to /api/config/plugins/<name> for each
    plugin entry; the pending-edits map is then empty and the modal
    closed. *)
Theorem saveConfig_flushes (s : State) (rs : list response) :
  let cd := configData (globals s) in
  let s' := (exec saveConfig [NetAll (Fulfilled rs)] s).1 in
  let sent := sent_since s s' in
  (exec saveConfig [NetAll (Fulfilled rs)] s).2 = Returned tt
  ∧ requests (world s') = requests (world s) ++ sent
  ∧ (∀ req, req ∈ sent ↔
       (∃ section sectionData key value,
           section ≠ "plugins" ∧ cd !! section = Some sectionData
           ∧ sectionData !! key = Some value
           ∧ req = Request "POST" "/api/config/app"
                     (JsonBody (VObj (<["section" := VStr section]>
                                       (<["key" := VStr key]>
                                         (<["value" := value]> ∅))))))
       ∨ (∃ plugins pluginName pluginConfig,
             cd !! "plugins" = Some plugins ∧ plugins !! pluginName = Some pluginConfig
             ∧ req = Request "POST" ("/api/config/plugins/" +:+ pluginName)
                       (JsonBody (VObj (<["config" := pluginConfig]> ∅)))))
  ∧ NoDup sent
  ∧ configData (globals s') = ∅
  ∧ configModal_active (dom s') = false.
Proof.
  intros cd s' sent.
  assert (Hsent : sent = app_requests cd ++ plugin_requests cd).
  { subst sent s'. unfold sent_since. rewrite saveConfig_resolved. cbn.
    by rewrite drop_app_length. }
  subst s'. rewrite saveConfig_resolved in *. cbn. rewrite Hsent.
  split_and!; try reflexivity.
  - intros req. rewrite elem_of_app, elem_of_app_requests, elem_of_plugin_requests.
    reflexivity.
  - apply NoDup_saved.
Qed.

Lemma saveConfig_nothing_pending (s : State) (net : list reply) :
  configData (globals s) = ∅ →
  requests (world (exec saveConfig net s).1) = requests (world s).
Proof.
  intros Hcd. unfold saveConfig. cbn. rewrite Hcd.
  unfold app_requests, plugin_requests. rewrite map_to_list_empty, lookup_empty. cbn.
  destruct net as [|[r|[rs|e]] net]; cbn; by rewrite app_nil_r.
Qed.

(** C2, as the code has it. [resetConfig] discards the pending edits once
    the user has confirmed and the backend has answered with a true
    [success]: the pending-edits map is then empty and a following save
    sends nothing. When the user declines nothing happens at all, and when
    the backend does not report success the pending edits stay as they
    were. *)
Theorem resetConfig_discards (s : State) (r : response) (result : jsval) :
  payload r = Some result →
  (truthy (member result "success") = true →
     let s' := (exec (resetConfig true) [Net (Fulfilled r)] s).1 in
     configData (globals s') = ∅
     ∧ ∀ net : list reply, sent_since s' (exec saveConfig net s').1 = [])
  ∧ (truthy (member result "success") = false →
       configData (globals (exec (resetConfig true) [Net (Fulfilled r)] s).1)
       = configData (globals s))
  ∧ (∀ net : list reply, exec (resetConfig false) net s = (s, Returned tt)).
Proof.
  intros Hp. split_and!.
  - intros Hok s'.
    assert (Hcd : configData (globals s') = ∅).
    { subst s'. unfold resetConfig. cbn. unfold json_of. rewrite Hp.
      destruct result; try discriminate Hok. cbn in *. by rewrite Hok. }
    split; [exact Hcd |].
    intros net. unfold sent_since.
    rewrite (saveConfig_nothing_pending s' net Hcd). apply drop_all.
  - intros Hno. unfold resetConfig. cbn. unfold json_of. rewrite Hp.
    destruct result; cbn in *; try reflexivity. by rewrite Hno.
  - intros net. reflexivity.
Qed.

Lemma resetConfig_discards_witness :
  configData
    (globals
       (exec (resetConfig true) [Net (answers (VObj (<["success" := VBool true]> ∅)))]
             one_edit).1)
  = ∅.
Proof.
  eapply resetConfig_discards; reflexivity.
Defined.

(** C2 as stated fails: a reset that the backend refuses leaves the edit
    pending, and the next save sends it. *)
Lemma reset_refused_keeps_edits :
  configData (globals reset_refused) !! "printer" = Some (<["baudrate" := VNum 9600]> ∅)
  ∧ sent_since reset_refused (exec saveConfig [NetAll (Fulfilled [])] reset_refused).1
    = [one_edit_request].
Proof.
  split; vm_compute; reflexivity.
Qed.

(** Closing the modal (the Cancel button and the close button both call
    [closeConfigModal]) hides it and touches nothing else: an edit made
    before is still pending, and the next save sends it. *)
Lemma closeConfigModal_keeps_edits :
  configData (globals (after closeConfigModal one_edit)) = configData (globals one_edit)
  ∧ sent_since (after closeConfigModal one_edit)
               (exec saveConfig [NetAll (Fulfilled [])] (after closeConfigModal one_edit)).1
    = [one_edit_request].
Proof.
  split; vm_compute; reflexivity.
Qed.

(** ** Failures *)

(** Runs a call on a symbolic page: the console trimming is the only
    branch left open. *)
Ltac open_console := cbn; repeat (case_bool_decide; cbn).

Ltac run_call :=
  open_console; unfold shows; cbn; repeat split; rewrite <- ?app_assoc;
  try reflexivity.

(** C1, as the code has it. The calls that wrap their fetch in
    [try]/[catch] and show a toast in the handler (the plugin and settings
    actions, clean-up, upload, and the relay toggle) never let a failed
    fetch out, and show exactly one error toast for it; [uploadFiles] has
    by then shown its "Uploading..." toast as well. *)
Theorem caught_failure_one_toast (s : State) (e : exn) :
  (∀ pluginName enable,
     shows s (exec (togglePlugin pluginName enable) (fails e) s)
       [error_toast [Lit "Error "; Lit (if enable then "enabling" else "disabling");
                     Lit " plugin: "; Lit (err_message e)]])
  ∧ (∀ pluginName,
       shows s (exec (reloadPlugin pluginName) (fails e) s)
         [error_toast [Lit "Error reloading plugin: "; Lit (err_message e)]])
  ∧ shows s (exec saveConfig [NetAll (Rejected e)] s)
      [error_toast [Lit "Error saving configuration: "; Lit (err_message e)]]
  ∧ shows s (exec (resetConfig true) (fails e) s)
      [error_toast [Lit "Error resetting configuration: "; Lit (err_message e)]]
  ∧ shows s (exec (cleanupFiles true) (fails e) s)
      [error_toast [Lit "Cleanup error: "; Lit (err_message e)]]
  ∧ (∀ files,
       shows s (exec (uploadFiles files) (fails e) s)
         [warning_toast [Lit "Uploading..."];
          error_toast [Lit "Upload error: "; Lit (err_message e)]])
  ∧ (relayToggling (globals s) = false →
     ∀ relayId,
       shows s (exec (toggleRelay relayId) (fails e) s)
         [error_toast [Lit "Network error - please try again"]]).
Proof.
  split_and!.
  - intros pluginName enable. unfold togglePlugin. run_call.
  - intros pluginName. unfold reloadPlugin. run_call.
  - unfold saveConfig. run_call.
  - unfold resetConfig. run_call.
  - unfold cleanupFiles. run_call.
  - intros files. unfold uploadFiles. run_call.
  - intros Hfree relayId. unfold toggleRelay. cbn. rewrite Hfree. run_call.
Qed.

Lemma caught_failure_one_toast_witness :
  shows initial (exec (toggleRelay "relay_1") (fails (Error "Failed to fetch")) initial)
    [error_toast [Lit "Network error - please try again"]].
Proof.
  apply (caught_failure_one_toast initial (Error "Failed to fetch")). reflexivity.
Defined.

(** C1 as stated fails: an upload whose fetch fails shows two toasts. *)
Lemma upload_failure_two_toasts :
  alertArea (dom (exec (uploadFiles ["cube.ctb"]) (fails (Error "Failed to fetch"))
                       initial).1)
  = [Toast "alert alert-warning" [Lit "Uploading..."];
     Toast "alert alert-error" [Lit "Upload error: "; Lit "Failed to fetch"]].
Proof. vm_compute. reflexivity. Qed.

(** The printer actions have no handler around their fetch: when it fails
    the call throws (its promise is rejected) and no toast is shown. *)
Lemma printer_action_failure (s : State) (e : exn) (announce : text) (req : request) :
  (exec (post_and_report announce req) (fails e) s).2 = Threw e
  ∧ alertArea (dom (exec (post_and_report announce req) (fails e) s).1)
    = alertArea (dom s)
  ∧ (exec connectPrinter (fails e) s).2 = Threw e
  ∧ alertArea (dom (exec connectPrinter (fails e) s).1) = alertArea (dom s).
Proof.
  unfold post_and_report, connectPrinter. cbn.
  repeat (case_bool_decide; cbn); repeat split; reflexivity.
Qed.

(** C5, as the code has it. When the backend answers with a JSON object
    whose [success] is false: the actions that report [result.message]
    show that text, unchanged, as the one error toast ([connectPrinter]
    when it is not empty, falling back on [result.error]; [toggleRelay]
    when it is not empty, the HTTP status is ok and no toggle is in
    flight); the actions that report [result.error] show that one. On an
    HTTP error status [toggleRelay] shows its network-error text whatever
    the body says. [setRelayState] shows no toast: on an ok HTTP status it
    logs the message with [console.error] and returns [false].
    [resetConfig], [cleanupFiles] and [uploadFiles] show a fixed text,
    [uploadFiles] after its "Uploading..." toast. *)
Theorem failure_text_surfaced (s : State) (r : response) (o : gmap string jsval)
    (m : string) :
  payload r = Some (VObj o) →
  truthy (member (VObj o) "success") = false →
  (member (VObj o) "message" = VStr m →
     shows s (exec disconnectPrinter [Net (Fulfilled r)] s) [error_toast [Lit m]]
     ∧ (∀ f, shows s (exec (printFile f) [Net (Fulfilled r)] s) [error_toast [Lit m]])
     ∧ shows s (exec pausePrint [Net (Fulfilled r)] s) [error_toast [Lit m]]
     ∧ shows s (exec resumePrint [Net (Fulfilled r)] s) [error_toast [Lit m]]
     ∧ shows s (exec (stopPrint true) [Net (Fulfilled r)] s) [error_toast [Lit m]]
     ∧ shows s (exec homeZ [Net (Fulfilled r)] s) [error_toast [Lit m]]
     ∧ (∀ d, shows s (exec (moveZ d) [Net (Fulfilled r)] s) [error_toast [Lit m]])
     ∧ shows s (exec recoverUSB [Net (Fulfilled r)] s) [error_toast [Lit m]]
     ∧ (m ≠ "" →
          shows s (exec connectPrinter [Net (Fulfilled r)] s) [error_toast [Lit m]]
          ∧ (ok r = true → relayToggling (globals s) = false →
             ∀ relayId, shows s (exec (toggleRelay relayId) [Net (Fulfilled r)] s)
                          [error_toast [Lit m]]))
     ∧ (ok r = true →
        ∀ relayId state,
          (exec (setRelayState relayId state) [Net (Fulfilled r)] s).2 = Returned false
          ∧ alertArea (dom (exec (setRelayState relayId state) [Net (Fulfilled r)] s).1)
            = alertArea (dom s)
          ∧ console_errors
              (world (exec (setRelayState relayId state) [Net (Fulfilled r)] s).1)
            = console_errors (world s) ++ [[Lit "Failed to set relay state:"; Lit m]]))
  ∧ (member (VObj o) "error" = VStr m →
       (∀ f, shows s (exec (selectFile f) [Net (Fulfilled r)] s) [error_toast [Lit m]])
       ∧ (∀ f, shows s (exec (deleteFile f true) [Net (Fulfilled r)] s)
                 [error_toast [Lit m]])
       ∧ (∀ p b, shows s (exec (togglePlugin p b) [Net (Fulfilled r)] s)
                   [error_toast [Lit m]])
       ∧ (∀ p, shows s (exec (reloadPlugin p) [Net (Fulfilled r)] s)
                 [error_toast [Lit m]])
       ∧ (truthy (member (VObj o) "message") = false →
            shows s (exec connectPrinter [Net (Fulfilled r)] s) [error_toast [Lit m]]))
  ∧ (ok r = false → relayToggling (globals s) = false →
     ∀ relayId, shows s (exec (toggleRelay relayId) [Net (Fulfilled r)] s)
                  [error_toast [Lit "Network error - please try again"]])
  ∧ shows s (exec (resetConfig true) [Net (Fulfilled r)] s)
      [error_toast [Lit "Failed to reset configuration"]]
  ∧ shows s (exec (cleanupFiles true) [Net (Fulfilled r)] s)
      [error_toast [Lit "Cleanup failed"]]
  ∧ (∀ files, shows s (exec (uploadFiles files) [Net (Fulfilled r)] s)
                [warning_toast [Lit "Uploading..."]; error_toast [Lit "Upload failed"]]).
Proof.
  intros Hp Hno. cbn in Hno.
  assert (Hbody : json_of r = Fulfilled (VObj o)) by (unfold json_of; by rewrite Hp).
  split_and!.
  - intros Hm. cbn in Hm.
    assert (Hreport : ∀ announce req,
               shows s (exec (post_and_report announce req) [Net (Fulfilled r)] s)
                       [error_toast [Lit m]]).
    { intros announce req. unfold post_and_report.
      open_console; rewrite Hbody; cbn; rewrite Hm; unfold level; rewrite Hno;
        run_call. }
    split_and!; try (intros; apply Hreport).
    + intros Hne. apply String.eqb_neq in Hne. split.
      * unfold connectPrinter.
        open_console; rewrite Hbody; cbn; rewrite Hm; unfold level, js_or;
          rewrite Hno; cbn; rewrite Hne; run_call.
      * intros Hok Hfree relayId. unfold toggleRelay. cbn. rewrite Hfree. cbn.
        rewrite Hok. cbn. rewrite Hbody. cbn. rewrite Hno. cbn.
        rewrite Hm. unfold js_or. cbn. rewrite Hne. run_call.
    + intros Hok relayId state. unfold setRelayState. cbn. rewrite Hok. cbn.
      rewrite Hbody. cbn. rewrite Hno. cbn. rewrite Hm. cbn.
      split_and!; reflexivity.
  - intros Hm. cbn in Hm. split_and!.
    + intros f. unfold selectFile.
      open_console; rewrite Hbody; cbn; rewrite Hno; cbn; rewrite Hm; run_call.
    + intros f. unfold deleteFile.
      open_console; rewrite Hbody; cbn; rewrite Hno; cbn; rewrite Hm; run_call.
    + intros p b. unfold togglePlugin.
      open_console; rewrite Hbody; cbn; rewrite Hno; cbn; rewrite Hm; run_call.
    + intros p. unfold reloadPlugin.
      open_console; rewrite Hbody; cbn; rewrite Hno; cbn; rewrite Hm; run_call.
    + intros Hnone. cbn in Hnone. unfold connectPrinter.
      open_console; rewrite Hbody; cbn; unfold level, js_or;
        rewrite Hno, Hnone, Hm; run_call.
  - intros Hok Hfree relayId. unfold toggleRelay. cbn. rewrite Hfree. cbn.
    rewrite Hok. run_call.
  - unfold resetConfig.
    open_console; rewrite Hbody; cbn; rewrite Hno; run_call.
  - unfold cleanupFiles.
    open_console; rewrite Hbody; cbn; rewrite Hno; run_call.
  - intros files. unfold uploadFiles.
    open_console; rewrite Hbody; cbn; rewrite Hno; run_call.
Qed.

Lemma failure_text_surfaced_witness :
  shows initial (exec pausePrint [Net printer_busy] initial)
    [error_toast [Lit "Printer busy"]]
  ∧ shows initial (exec (selectFile "cube.ctb") [Net file_missing] initial)
      [error_toast [Lit "File not found"]].
Proof.
  split.
  - destruct (failure_text_surfaced initial
                (Response true 200
                   (Some (VObj (<["success" := VBool false]>
                                 (<["message" := VStr "Printer busy"]> ∅)))))
                (<["success" := VBool false]> (<["message" := VStr "Printer busy"]> ∅))
                "Printer busy") as (Hmessage & _); [reflexivity | reflexivity |].
    destruct Hmessage as (_ & _ & Hpause & _); [reflexivity |]. exact Hpause.
  - destruct (failure_text_surfaced initial
                (Response true 200
                   (Some (VObj (<["success" := VBool false]>
                                 (<["error" := VStr "File not found"]> ∅)))))
                (<["success" := VBool false]> (<["error" := VStr "File not found"]> ∅))
                "File not found") as (_ & Herror & _); [reflexivity | reflexivity |].
    destruct Herror as (Hselect & _); [reflexivity |]. exact (Hselect "cube.ctb").
Defined.

(** C5 as stated fails: [setRelayState] receives a failure with a message
    and shows no toast; it logs the message and returns [false]. *)
Lemma setRelayState_failure_no_toast :
  alertArea (dom (exec (setRelayState "relay_1" true) [Net relay_refused] initial).1) = []
  ∧ (exec (setRelayState "relay_1" true) [Net relay_refused] initial).2 = Returned false
  ∧ console_errors (world (exec (setRelayState "relay_1" true) [Net relay_refused]
                                initial).1)
    = [[Lit "Failed to set relay state:"; Lit "GPIO busy"]].
Proof. split_and!; vm_compute; reflexivity. Qed.

(** ** Relay buttons *)

Lemma prefix_app_space (p s t : string) :
  spaceless p = true →
  String.prefix p (s +:+ String space_char t) = String.prefix p s.
Proof.
  revert s. induction p as [|a p IH]; intros s Hp; [destruct s; reflexivity |].
  cbn in Hp. apply andb_true_iff in Hp as [Ha Hp].
  destruct s as [|b s]; simpl.
  - destruct (Ascii.ascii_dec a space_char) as [->|Hne]; [discriminate Ha | reflexivity].
  - destruct (Ascii.ascii_dec a b); [apply IH, Hp | reflexivity].
Qed.

Lemma prefix_length (p s : string) :
  String.prefix p s = true → String.length p ≤ String.length s.
Proof.
  revert s. induction p as [|a p IH]; intros s Hp; cbn; [lia |].
  destruct s as [|b s]; cbn in *; [discriminate |].
  destruct (Ascii.ascii_dec a b); [| discriminate]. apply IH in Hp. lia.
Qed.

Lemma cut_marks_here (c : Ascii.ascii) (s : string) :
  cut_marks 0 (String c s)
  = if String.prefix "relay-on" (String c s) then cut_marks 7 s
    else if String.prefix "relay-off" (String c s) then cut_marks 8 s
    else String c (cut_marks 0 s).
Proof. reflexivity. Qed.

Lemma cut_marks_skip (k : nat) (c : Ascii.ascii) (s : string) :
  cut_marks (S k) (String c s) = cut_marks k s.
Proof. reflexivity. Qed.

Lemma cut_marks_app (k : nat) (s t : string) :
  k ≤ String.length s →
  cut_marks k (s +:+ String space_char t)
  = cut_marks k s +:+ cut_marks 0 (String space_char t).
Proof.
  remember (cut_marks 0 (String space_char t)) as rest eqn:Hrest.
  revert k. induction s as [|c s IH]; intros k Hk.
  - cbn in Hk. assert (k = 0) as -> by lia. by subst rest.
  - change (String c s +:+ String space_char t)
      with (String c (s +:+ String space_char t)).
    destruct k as [|k].
    + rewrite !cut_marks_here.
      change (String c (s +:+ String space_char t))
        with (String c s +:+ String space_char t).
      rewrite !prefix_app_space by reflexivity.
      destruct (String.prefix "relay-on" (String c s)) eqn:Hon.
      { apply prefix_length in Hon. cbn in Hon. apply IH. lia. }
      destruct (String.prefix "relay-off" (String c s)) eqn:Hoff.
      { apply prefix_length in Hoff. cbn in Hoff. apply IH. lia. }
      rewrite IH by lia. reflexivity.
    + rewrite !cut_marks_skip. apply IH. cbn in Hk. lia.
Qed.

Lemma cut_marks_length (k : nat) (s : string) :
  k ≤ String.length s →
  String.length (cut_marks k s) + k ≤ String.length s
  ∧ (k = 0 → cut_marks 0 s = s ∨ String.length (cut_marks 0 s) + 8 ≤ String.length s).
Proof.
  revert k. induction s as [|c s IH]; intros k Hk.
  - cbn in *. split; [lia | intros _; by left].
  - destruct k as [|k]; [rewrite cut_marks_here | rewrite cut_marks_skip].
    + destruct (String.prefix "relay-on" (String c s)) eqn:Hon.
      { apply prefix_length in Hon. cbn in Hon.
        destruct (IH 7) as [H7 _]; [lia |]. cbn [String.length]. split; [lia | intros _; right; lia]. }
      destruct (String.prefix "relay-off" (String c s)) eqn:Hoff.
      { apply prefix_length in Hoff. cbn in Hoff.
        destruct (IH 8) as [H8 _]; [lia |]. cbn [String.length]. split; [lia | intros _; right; lia]. }
      destruct (IH 0) as [H0 Hor]; [lia |]. cbn [String.length]. split; [lia |].
      intros _. destruct (Hor eq_refl) as [->|Hlen]; [by left | right; lia].
    + cbn in Hk. destruct (IH k) as [Hk' _]; [lia |]. cbn [String.length].
      split; [lia | intros; discriminate].
Qed.

Lemma trim_start_length (s : string) : String.length (trim_start s) ≤ String.length s.
Proof.
  induction s as [|c s IH]; cbn; [lia |]. destruct (is_space c); cbn; lia.
Qed.

Lemma trim_end_length (s : string) : String.length (trim_end s) ≤ String.length s.
Proof.
  induction s as [|c s IH]; cbn; [lia |].
  destruct (trim_end s); cbn in *; [destruct (is_space c); cbn; lia | lia].
Qed.

Lemma trim_length (s : string) : String.length (trim s) ≤ String.length s.
Proof.
  unfold trim. pose proof (trim_end_length (trim_start s)).
  pose proof (trim_start_length s). lia.
Qed.

Lemma append_length (s t : string) :
  String.length (s +:+ t) = String.length s + String.length t.
Proof. induction s as [|c s IH]; simpl; [reflexivity | by f_equal]. Qed.

Lemma cut_marks_mark (base : string) (on : bool) :
  cut_marks 0 (base +:+ mark on) = cut_marks 0 base +:+ " ".
Proof.
  unfold mark. destruct on.
  - change (" relay-" +:+ "on") with (String space_char "relay-on").
    rewrite (cut_marks_app 0) by lia. reflexivity.
  - change (" relay-" +:+ "off") with (String space_char "relay-off").
    rewrite (cut_marks_app 0) by lia. reflexivity.
Qed.

Lemma className_shown (c : string) (on : bool) :
  trim (cut_marks 0 c) +:+ mark on = c →
  ∀ other : bool, trim (cut_marks 0 (trim (cut_marks 0 c) +:+ mark other)) = trim (cut_marks 0 c).
Proof.
  intros Hc other. set (base := trim (cut_marks 0 c)) in *.
  assert (Hbase : base = trim (cut_marks 0 base +:+ " ")).
  { unfold base at 1. rewrite <- Hc at 1. by rewrite cut_marks_mark. }
  assert (Hclean : cut_marks 0 base = base).
  { destruct (cut_marks_length 0 base) as [_ Hor]; [lia |].
    destruct (Hor eq_refl) as [Heq|Hlen]; [exact Heq |].
    pose proof (trim_length (cut_marks 0 base +:+ " ")) as Htrim.
    rewrite <- Hbase, append_length in Htrim. cbn in Htrim. lia. }
  rewrite cut_marks_mark, Hclean. rewrite Hclean in Hbase. by rewrite <- Hbase.
Qed.

Lemma render_relay_truthy (v : jsval) (b : relay_button) :
  render_relay v b = render_relay (VBool (truthy v)) b.
Proof. reflexivity. Qed.

Lemma render_relay_back (on other : bool) (b : relay_button) :
  render_relay (VBool on) b = b →
  render_relay (VBool on) (render_relay (VBool other) b) = b.
Proof.
  destruct b as [c icon bg border]. intros Hb.
  assert (Hc : trim (cut_marks 0 c) +:+ mark on = c)
    by exact (f_equal btn_className Hb).
  pose proof (f_equal icon_color Hb) as Hicon.
  pose proof (f_equal background Hb) as Hbg.
  pose proof (f_equal borderColor Hb) as Hborder.
  change (RelayButton
            (trim (cut_marks 0 (trim (cut_marks 0 c) +:+ mark other)) +:+ mark on)
            (match icon_color (render_relay (VBool other) (RelayButton c icon bg border)) with
             | Some _ => Some (if on then "#28a745" else "#c7c7c7")
             | None => None
             end)
            (if on then "#2d5a31" else "#3a3a3a")
            (if on then "#28a745" else "#555")
          = RelayButton c icon bg border).
  rewrite (className_shown c on Hc other), Hc.
  cbn in Hicon, Hbg, Hborder. rewrite Hbg, Hborder. f_equal.
  destruct icon; [exact Hicon | reflexivity].
Qed.

Lemma toggleRelay_success (s : State) (relayId : string) (r : response)
    (d : gmap string jsval) :
  relayToggling (globals s) = false →
  ok r = true → payload r = Some (VObj d) →
  truthy (member (VObj d) "success") = true →
  let s' := (exec (toggleRelay relayId) [Net (Fulfilled r)] s).1 in
  relayToggling (globals s') = false
  ∧ relayButtons (dom s')
    = match relayButtons (dom s) !! relayId with
      | Some b => <[relayId := render_relay (member (VObj d) "state") b]>
                    (relayButtons (dom s))
      | None => relayButtons (dom s)
      end.
Proof.
  intros Hfree Hok Hp Hsuccess. cbn in Hsuccess.
  unfold toggleRelay. cbn. rewrite Hfree. cbn. rewrite Hok. cbn.
  unfold json_of. rewrite Hp. cbn. rewrite Hsuccess. cbn.
  destruct (relayButtons (dom s) !! relayId); cbn; split; reflexivity.
Qed.

(** C3, as the code has it. A button that shows state [on] (rendering it
    for [on] would change nothing) is back exactly as it was, class
    attribute and inline colours, after two successful toggles of which
    the second returns [on]; in particular when the backend returns the
    negation of [on] and then [on]. In between it shows what the first
    toggle returned. *)
Theorem toggle_twice_restores (s : State) (relayId : string) (b : relay_button)
    (on : bool) (r1 r2 : response) (d1 d2 : gmap string jsval) :
  relayToggling (globals s) = false →
  relayButtons (dom s) !! relayId = Some b →
  render_relay (VBool on) b = b →
  ok r1 = true → payload r1 = Some (VObj d1) →
  truthy (member (VObj d1) "success") = true →
  ok r2 = true → payload r2 = Some (VObj d2) →
  truthy (member (VObj d2) "success") = true →
  truthy (member (VObj d2) "state") = on →
  let s1 := (exec (toggleRelay relayId) [Net (Fulfilled r1)] s).1 in
  let s2 := (exec (toggleRelay relayId) [Net (Fulfilled r2)] s1).1 in
  relayButtons (dom s1) !! relayId = Some (render_relay (member (VObj d1) "state") b)
  ∧ relayButtons (dom s2) = relayButtons (dom s).
Proof.
  intros Hfree Hb Hshown Hok1 Hp1 Hs1 Hok2 Hp2 Hs2 Hon s1 s2.
  destruct (toggleRelay_success s relayId r1 d1 Hfree Hok1 Hp1 Hs1) as [Hfree1 Hbtn1].
  fold s1 in Hfree1, Hbtn1. rewrite Hb in Hbtn1.
  destruct (toggleRelay_success s1 relayId r2 d2 Hfree1 Hok2 Hp2 Hs2) as [_ Hbtn2].
  fold s2 in Hbtn2.
  split.
  - rewrite Hbtn1. apply lookup_insert_eq.
  - rewrite Hbtn2, Hbtn1, lookup_insert_eq, insert_insert_eq.
    rewrite (render_relay_truthy (member (VObj d2) "state")), Hon.
    rewrite (render_relay_truthy (member (VObj d1) "state")).
    rewrite render_relay_back by exact Hshown.
    by apply insert_id.
Qed.

Lemma toggle_twice_restores_witness :
  relayButtons (dom (exec (toggleRelay "relay_1") [Net (toggled true)]
                       (exec (toggleRelay "relay_1") [Net (toggled false)] lamp_on).1).1)
  = relayButtons (dom lamp_on).
Proof.
  eapply (toggle_twice_restores lamp_on "relay_1" _ true); reflexivity.
Defined.

(** C3 as stated fails: the button shows the relay as on while the backend
    has it off; the two toggles return on and then off, each the negation
    of the one before, and the button ends up showing off. *)
Lemma stale_button_not_restored :
  relayButtons (dom lamp_on) !! "relay_1"
  = Some (RelayButton "relay-toolbar-btn relay-on" (Some "#28a745") "#2d5a31" "#28a745")
  ∧ relayButtons (dom lamp_toggled_twice) !! "relay_1"
    = Some (RelayButton "relay-toolbar-btn relay-off" (Some "#c7c7c7") "#3a3a3a" "#555")
  ∧ relayButtons (dom lamp_toggled_twice) !! "relay_1"
    ≠ relayButtons (dom lamp_on) !! "relay_1".
Proof.
  split_and!; [vm_compute; reflexivity | vm_compute; reflexivity |].
  vm_compute. discriminate.
Qed.

(** ** The relay toggle guard *)

Lemma quiet_run {A : Type} (p : Prog A) (s : State) :
  quiet p →
  toggling (run p s).1 = toggling s
  ∧ obeys_paused (keeps toggling) no_toggle True (run p s).2.
Proof.
  apply obeys_run; [auto | intros reqs _ s'; reflexivity].
Qed.

Lemma quiet_park (p : Prog unit) (s : State) :
  quiet p →
  toggling (park (run p s)).1 = toggling s ∧ quiet_slot (park (run p s)).2.
Proof.
  intros Hp. destruct (quiet_run p s Hp) as [Hflag Hrest].
  destruct (run p s) as [s' [a|e|req k|r k|reqs k]]; cbn in *; auto.
Qed.

Lemma holding_run (p : Prog unit) (s : State) :
  holding p → toggling s = true →
  (toggling (park (run p s)).1 = false ∧ (park (run p s)).2 = None)
  ∨ (toggling (park (run p s)).1 = true
     ∧ ∃ w, (park (run p s)).2 = Some w ∧ holder w).
Proof.
  revert s.
  induction p as [a|e|k IH|g k IH|req k IH|r k IH|reqs k IH]; intros s Hp Hs; cbn in *.
  - destruct Hp.
  - destruct Hp.
  - apply IH; [apply Hp | exact Hs].
  - destruct Hp as [[Hg Hk]|[Hg Hk]].
    + apply IH; [exact Hk | by rewrite Hg].
    + left. destruct k; try destruct Hk; cbn; (split; [apply Hg | reflexivity]).
  - right. split; [exact Hs |]. eexists. split; [reflexivity | exact (proj2 Hp)].
  - right. split; [exact Hs |]. eexists. split; [reflexivity | exact Hp].
  - right. split; [exact Hs |]. eexists. split; [reflexivity | exact (proj2 Hp)].
Qed.

Lemma holding_try_finally {A : Type} (p : Prog A) :
  quiet p → holding (try_finally p (set_relayToggling false)).
Proof.
  unfold quiet.
  induction p as [a|e|k IH|g k IH|req k IH|r k IH|reqs k IH]; intros Hp; cbn in *.
  - right. split; [reflexivity | exact I].
  - right. split; [reflexivity | exact I].
  - intros s. apply IH, Hp.
  - left. split; [apply Hp | apply IH, Hp].
  - split; [apply Hp | intros r; apply IH, Hp].
  - intros v. apply IH, Hp.
  - split; [apply Hp | intros r; apply IH, Hp].
Qed.

Lemma in_flight_bound (b : bool) (ts : list (option (paused unit))) :
  slots_ok b ts → length (List.filter waits_for_toggle ts) ≤ (if b then 1 else 0).
Proof.
  induction 1 as [|b t ts Ht _ IH|w ts Hw _ IH].
  - simpl. lia.
  - cbn [List.filter].
    assert (waits_for_toggle t = false) as ->; [| exact IH].
    destruct t as [[a|e|req k|r k|reqs k]|]; simpl in *; try reflexivity.
    destruct Ht as [Hreq _]. by inversion Hreq.
  - cbn [List.filter]. simpl in IH.
    destruct (waits_for_toggle (Some w)); simpl; lia.
Qed.

Lemma slots_ok_snoc_quiet (b : bool) (ts : list (option (paused unit)))
    (t : option (paused unit)) :
  slots_ok b ts → quiet_slot t → slots_ok b (ts ++ [t]).
Proof.
  intros Hts Ht. induction Hts; cbn.
  - apply slots_quiet; [exact Ht | constructor].
  - by apply slots_quiet.
  - by apply slots_holder.
Qed.

Lemma slots_ok_snoc_holder (ts : list (option (paused unit))) (w : paused unit) :
  slots_ok false ts → holder w → slots_ok true (ts ++ [Some w]).
Proof.
  intros Hts Hw. remember false as b eqn:Hb. induction Hts; cbn.
  - apply slots_holder; [exact Hw | constructor].
  - apply slots_quiet; auto.
  - discriminate.
Qed.

(** What can be done with slot [i] of a well-formed list. *)
Lemma slots_ok_at (b : bool) (ts : list (option (paused unit))) (i : nat)
    (w : paused unit) :
  slots_ok b ts → ts !! i = Some (Some w) →
  (quiet_slot (Some w) ∧ ∀ t, quiet_slot t → slots_ok b (<[i := t]> ts))
  ∨ (b = true ∧ holder w
     ∧ (∀ w', holder w' → slots_ok true (<[i := Some w']> ts))
     ∧ slots_ok false (<[i := None]> ts)).
Proof.
  intros Hts. revert i.
  induction Hts as [|b t ts Ht Hts IH|w0 ts Hw Hts IH]; intros i Hi.
  - by destruct i.
  - destruct i as [|i]; cbn in Hi.
    + simplify_eq. left. split; [exact Ht |]. intros t Ht'. cbn. by apply slots_quiet.
    + destruct (IH i Hi) as [[Hq Hset]|(-> & Hh & Hset & Hnone)].
      * left. split; [exact Hq |]. intros t' Ht'. cbn. apply slots_quiet; auto.
      * right. split_and!; auto.
        -- intros w' Hw'. cbn. apply slots_quiet; auto.
        -- cbn. apply slots_quiet; auto.
  - destruct i as [|i]; cbn in Hi.
    + simplify_eq. right. split_and!; auto.
      * intros w' Hw'. cbn. by apply slots_holder.
      * cbn. apply slots_quiet; [exact I | exact Hts].
    + destruct (IH i Hi) as [[Hq Hset]|(Hb & _)]; [| discriminate].
      left. split; [exact Hq |]. intros t' Ht'. cbn. apply slots_holder; auto.
Qed.


Lemma saved_no_toggle (cd : gmap string (gmap string jsval)) :
  no_toggle (app_requests cd ++ plugin_requests cd).
Proof.
  apply Forall_forall. intros req [Hin|Hin]%elem_of_app.
  - apply elem_of_app_requests in Hin as (? & ? & ? & ? & _ & _ & _ & ->). reflexivity.
  - apply elem_of_plugin_requests in Hin as (? & ? & ? & _ & _ & ->). reflexivity.
Qed.

Lemma handler_quiet (c : call) :
  (∀ relayId, c ≠ ToggleRelay relayId) → quiet (handler c).
Proof.
  intros Hc. unfold quiet.
  destruct c; try (exfalso; by eapply Hc); cbn [handler];
    try (obeys_tac; fail).
  unfold saveConfig. apply obeys_try_catch; [| obeys_tac].
  intros s. cbn. split; [apply saved_no_toggle |]. intros r. obeys_tac.
Qed.

Lemma toggleRelay_busy (s : State) (relayId : string) :
  toggling s = true → run (toggleRelay relayId) s = (s, Done tt).
Proof.
  unfold toggling, toggleRelay. intros Hs. cbn. by rewrite Hs.
Qed.

Lemma toggleRelay_free (s : State) (relayId : string) :
  toggling s = false →
  toggling (run (toggleRelay relayId) s).1 = true
  ∧ ∃ w, (run (toggleRelay relayId) s).2 = w ∧ holder w
         ∧ park (run (toggleRelay relayId) s) = ((run (toggleRelay relayId) s).1, Some w).
Proof.
  unfold toggling, toggleRelay. intros Hs. cbn. rewrite Hs. cbn.
  split; [reflexivity |]. eexists. split; [reflexivity |]. split; [| reflexivity].
  intros r. apply holding_try_finally. unfold quiet. obeys_tac.
Qed.

Lemma step_ok (l : loop) (e : event) : loop_ok l → loop_ok (step l e).
Proof.
  unfold loop_ok. destruct l as [s ts]. cbn [page tasks]. intros Hok.
  destruct e as [c|i r|i|i r|t]; cbn [step page tasks].
  - (* a call *)
    assert (Hc : (∃ relayId, c = ToggleRelay relayId)
                 ∨ ∀ relayId, c ≠ ToggleRelay relayId).
    { destruct c; try (right; intros relayId'; discriminate). left. by eexists. }
    destruct Hc as [[relayId ->]|Hc].
    + cbn [handler]. destruct (toggling s) eqn:Hs.
      * rewrite (toggleRelay_busy s relayId Hs). cbn. rewrite Hs.
        by apply slots_ok_snoc_quiet.
      * destruct (toggleRelay_free s relayId Hs) as (Hs' & w & _ & Hw & ->).
        cbn [fst snd page tasks]. rewrite Hs'. by apply slots_ok_snoc_holder.
    + destruct (quiet_park (handler c) s) as [Hs' Hq].
      { by apply handler_quiet. }
      cbn [page tasks]. rewrite Hs'. by apply slots_ok_snoc_quiet.
  - (* a fetch settles *)
    destruct (ts !! i) as [[[a|e|req k|r0 k|reqs k]|]|] eqn:Hi; try exact Hok.
    unfold resume. cbn [page tasks].
    destruct (slots_ok_at _ _ _ _ Hok Hi) as [[Hq Hset]|(Hs & Hh & Hset & Hnone)].
    + destruct (quiet_park (k r) s (proj2 Hq r)) as [Hs' Hq'].
      rewrite Hs'. by apply Hset.
    + destruct (holding_run (k r) s (Hh r) Hs) as [[Hs' ->]|(Hs' & w & -> & Hw)];
        rewrite Hs'; auto.
  - (* a body is read *)
    destruct (ts !! i) as [[[a|e|req k|r0 k|reqs k]|]|] eqn:Hi; try exact Hok.
    unfold resume. cbn [page tasks].
    destruct (slots_ok_at _ _ _ _ Hok Hi) as [[Hq Hset]|(Hs & Hh & Hset & Hnone)].
    + destruct (quiet_park (k (json_of r0)) s (proj2 Hq _)) as [Hs' Hq'].
      rewrite Hs'. by apply Hset.
    + destruct (holding_run (k (json_of r0)) s (Hh _) Hs) as [[Hs' ->]|(Hs' & w & -> & Hw)];
        rewrite Hs'; auto.
  - (* a batch of fetches settles *)
    destruct (ts !! i) as [[[a|e|req k|r0 k|reqs k]|]|] eqn:Hi; try exact Hok.
    unfold resume. cbn [page tasks].
    destruct (slots_ok_at _ _ _ _ Hok Hi) as [[Hq Hset]|(Hs & Hh & Hset & Hnone)].
    + destruct (quiet_park (k r) s (proj2 Hq r)) as [Hs' Hq'].
      rewrite Hs'. by apply Hset.
    + destruct (holding_run (k r) s (Hh r) Hs) as [[Hs' ->]|(Hs' & w & -> & Hw)];
        rewrite Hs'; auto.
  - exact Hok.
Qed.

Lemma steps_ok (es : list event) (l : loop) : loop_ok l → loop_ok (steps l es).
Proof.
  revert l. induction es as [|e es IH]; intros l Hl; [exact Hl |].
  cbn. apply IH. by apply step_ok.
Qed.

Lemma toggleRelay_completes (s : State) (relayId : string) (r : settled response) :
  relayToggling (globals s) = false →
  (exec (toggleRelay relayId) [Net r] s).2 = Returned tt
  ∧ relayToggling (globals (exec (toggleRelay relayId) [Net r] s).1) = false.
Proof.
  intros Hs. unfold toggleRelay. cbn. rewrite Hs. cbn.
  destruct r as [[[] st [v|]]|e]; cbn; try (split; reflexivity).
  destruct v as [| | | | | | |d]; cbn; try (split; reflexivity).
  destruct (truthy (default VUndef (d !! "success"))); cbn; [| split; reflexivity].
  destruct (relayButtons (dom s) !! relayId); cbn; split; reflexivity.
Qed.

(** C9. [toggleRelay] is guarded against re-entry. While the flag
    [relayToggling] is raised a further call returns at once and leaves the
    page as it is: no request, no change to any button. A call that found
    the flag lowered has lowered it again when it ends, however its fetch
    settled (success, application failure, HTTP error, unreadable body,
    network error), and it never throws. And whatever the user, the timers
    and the network do from the loading of the page on, at most one toggle
    request is out at any time, and none while the flag is lowered. *)
Theorem toggleRelay_reentrancy :
  (∀ (s : State) (relayId : string),
     relayToggling (globals s) = true → run (toggleRelay relayId) s = (s, Done tt))
  ∧ (∀ (s : State) (relayId : string) (r : settled response),
       relayToggling (globals s) = false →
       (exec (toggleRelay relayId) [Net r] s).2 = Returned tt
       ∧ relayToggling (globals (exec (toggleRelay relayId) [Net r] s).1) = false)
  ∧ (∀ es : list event,
       toggles_in_flight (steps boot es) ≤ 1
       ∧ (relayToggling (globals (page (steps boot es))) = false →
          toggles_in_flight (steps boot es) = 0)).
Proof.
  split_and!.
  - apply toggleRelay_busy.
  - apply toggleRelay_completes.
  - intros es.
    assert (Hok : loop_ok (steps boot es)) by (apply steps_ok; constructor).
    apply in_flight_bound in Hok. unfold toggles_in_flight, toggling in *.
    split; [destruct (relayToggling _); lia |].
    intros Hfree. rewrite Hfree in Hok. lia.
Qed.

Lemma toggleRelay_reentrancy_witness :
  run (toggleRelay "relay_1") (set_relayToggling true initial)
  = (set_relayToggling true initial, Done tt)
  ∧ relayToggling
      (globals (exec (toggleRelay "relay_1") [Net (toggled true)] initial).1) = false.
Proof.
  destruct toggleRelay_reentrancy as (Hbusy & Hdone & _). split.
  - apply Hbusy. reflexivity.
  - apply Hdone. reflexivity.
Defined.

(** * Further properties *)

(** ** Edits and saves *)

Lemma updateConfigValue_after (s : State) (section key : string) (value : jsval) :
  after (updateConfigValue section key value) s
  = set_configData
      (<[section := <[key := value]> (default ∅ (configData (globals s) !! section))]>
         (configData (globals s))) s.
Proof.
  unfold after, updateConfigValue.
  cbn [mbind Prog_bind bind get run fst modify mret Prog_ret].
  case_bool_decide as Hsec;
    cbn [mbind Prog_bind bind get run fst modify mret Prog_ret];
    unfold set_configData, upd_globals; cbn; do 2 f_equal;
    apply map_eq; intros k; destruct (decide (k = section)) as [->|Hne].
  - rewrite lookup_alter_eq, !lookup_insert_eq, Hsec. reflexivity.
  - rewrite lookup_alter_ne, !lookup_insert_ne by done. reflexivity.
  - rewrite lookup_alter_eq, lookup_insert_eq.
    destruct (configData (globals s) !! section); [reflexivity | done].
  - rewrite lookup_alter_ne, lookup_insert_ne by done. reflexivity.
Qed.

(** What a save sends, whether or not it is answered. *)
Lemma saveConfig_sent (s : State) (net : list reply) :
  sent_since s (exec saveConfig net s).1
  = app_requests (configData (globals s)) ++ plugin_requests (configData (globals s)).
Proof.
  unfold sent_since, saveConfig. cbn.
  destruct net as [|[r|[rs|e]] net]; cbn; by rewrite drop_app_length.
Qed.

(** X1. [updateConfigValue section key value] records the edit and nothing
    else: afterwards the section exists and holds [value] under [key], its
    other keys and the other sections are as before (a section not yet
    edited starts empty), and neither the page nor the outside world has
    changed. *)
Theorem updateConfigValue_recorded (s : State) (section key : string) (value : jsval) :
  let cd := configData (globals s) in
  let s' := after (updateConfigValue section key value) s in
  let cd' := configData (globals s') in
  (∃ sectionData,
      cd' !! section = Some sectionData
      ∧ sectionData !! key = Some value
      ∧ ∀ k, k ≠ key → sectionData !! k = default ∅ (cd !! section) !! k)
  ∧ (∀ other, other ≠ section → cd' !! other = cd !! other)
  ∧ dom s' = dom s ∧ world s' = world s.
Proof.
  intros cd s' cd'. subst cd' s'. rewrite updateConfigValue_after. cbn.
  split_and!; try reflexivity.
  - eexists. split; [apply lookup_insert_eq |]. split; [apply lookup_insert_eq |].
    intros k Hk. by rewrite lookup_insert_ne.
  - intros other Hne. by rewrite lookup_insert_ne.
Qed.



Lemma updatePluginConfigValue_after (s : State) (pluginName key : string) (value : jsval) :
  after (updatePluginConfigValue pluginName key value) s
  = set_configData
      (<["plugins" :=
           <[pluginName := set_prop (if truthy (pending_plugin s pluginName)
                                     then pending_plugin s pluginName else VObj ∅)
                                    key value]>
             (default ∅ (configData (globals s) !! "plugins"))]>
         (configData (globals s))) s.
Proof.
  unfold after, updatePluginConfigValue, pending_plugin.
  cbn [mbind Prog_bind bind get run fst modify mret Prog_ret].
  destruct (configData (globals s) !! "plugins") as [plugins|] eqn:Hp.
  - rewrite bool_decide_eq_false_2 by done.
    cbn [mbind Prog_bind bind get run fst modify mret Prog_ret]. rewrite Hp.
    cbn [default from_option id].
    destruct (plugins !! pluginName) as [old|] eqn:Hold; cbn [default from_option id];
      [destruct (truthy old) eqn:Ht |];
      cbn [truthy negb mbind Prog_bind bind get run fst modify mret Prog_ret];
      unfold set_configData, upd_globals; cbn; do 2 f_equal;
      apply map_eq; intros k; destruct (decide (k = "plugins")) as [->|Hne];
      rewrite ?lookup_alter_eq, ?lookup_insert_eq, ?lookup_alter_ne,
              ?lookup_insert_ne, ?Hp by done; cbn; try reflexivity; f_equal;
      apply map_eq; intros n; destruct (decide (n = pluginName)) as [->|Hn];
      rewrite ?lookup_alter_eq, ?lookup_insert_eq, ?lookup_alter_ne,
              ?lookup_insert_ne, ?Hold by done; reflexivity.
  - rewrite bool_decide_eq_true_2 by done.
    cbn [mbind Prog_bind bind get run fst modify mret Prog_ret].
    cbn [globals configData set_configData upd_globals].
    rewrite lookup_insert_eq. cbn [default from_option id]. rewrite lookup_empty.
    cbn [default from_option id truthy negb
         mbind Prog_bind bind get run fst modify mret Prog_ret].
    unfold set_configData, upd_globals; cbn; do 2 f_equal;
      apply map_eq; intros k; destruct (decide (k = "plugins")) as [->|Hne];
      rewrite ?lookup_alter_eq, ?lookup_insert_eq, ?lookup_alter_ne,
              ?lookup_insert_ne by done; cbn; try reflexivity; f_equal;
      apply map_eq; intros n; destruct (decide (n = pluginName)) as [->|Hn];
      rewrite ?lookup_alter_eq, ?lookup_insert_eq, ?lookup_alter_ne,
              ?lookup_insert_ne by done; reflexivity.
Qed.

Lemma pending_plugin_after (s : State) (pluginName key : string) (value : jsval)
    (other : string) :
  pending_plugin (after (updatePluginConfigValue pluginName key value) s) other
  = if decide (other = pluginName)
    then set_prop (if truthy (pending_plugin s pluginName)
                   then pending_plugin s pluginName else VObj ∅) key value
    else pending_plugin s other.
Proof.
  rewrite updatePluginConfigValue_after. unfold pending_plugin at 1. cbn.
  rewrite lookup_insert_eq. cbn.
  destruct (decide (other = pluginName)) as [->|Hne].
  - by rewrite lookup_insert_eq.
  - by rewrite lookup_insert_ne.
Qed.

(** X3. [updatePluginConfigValue pluginName key value] keeps one pending
    object per plugin. A plugin with nothing pending (or a falsy entry)
    gets the object holding just [key]; a plugin with a pending object gets
    [key] set in it, its other keys kept; the other plugins and the
    application sections are as before. *)
Theorem updatePluginConfigValue_recorded (s : State) (pluginName key : string)
    (value : jsval) :
  let s' := after (updatePluginConfigValue pluginName key value) s in
  (truthy (pending_plugin s pluginName) = false →
     pending_plugin s' pluginName = VObj {[key := value]})
  ∧ (∀ o, pending_plugin s pluginName = VObj o →
       pending_plugin s' pluginName = VObj (<[key := value]> o))
  ∧ (∀ other, other ≠ pluginName → pending_plugin s' other = pending_plugin s other)
  ∧ (∀ section, section ≠ "plugins" →
       configData (globals s') !! section = configData (globals s) !! section).
Proof.
  intros s'. subst s'. split_and!.
  - intros Hold. rewrite pending_plugin_after, decide_True, Hold by done. reflexivity.
  - intros o Hold. rewrite pending_plugin_after, decide_True, Hold by done. reflexivity.
  - intros other Hne. by rewrite pending_plugin_after, decide_False.
  - intros section Hne. rewrite updatePluginConfigValue_after. cbn.
    by rewrite lookup_insert_ne.
Qed.

Lemma updatePluginConfigValue_recorded_witness :
  pending_plugin (after (updatePluginConfigValue "relay_controller" "enabled" (VBool true))
                        initial) "relay_controller"
  = VObj {["enabled" := VBool true]}.
Proof.
  apply (proj1 (updatePluginConfigValue_recorded initial "relay_controller" "enabled"
                  (VBool true))). reflexivity.
Defined.

(** X4. Edits of one plugin travel together. After two edits of a plugin
    that had nothing pending, the next save sends to
    /api/config/plugins/<name> one configuration object, which holds the
    two edited keys and nothing else: the save carries what was edited in
    the modal, not the plugin's whole configuration. *)
Theorem plugin_edits_saved_together (s : State) (pluginName k1 k2 : string)
    (v1 v2 : jsval) (net : list reply) :
  truthy (pending_plugin s pluginName) = false →
  let s' := after (updatePluginConfigValue pluginName k2 v2)
                  (after (updatePluginConfigValue pluginName k1 v1) s) in
  ∀ config, plugin_request (pluginName, config) ∈ sent_since s' (exec saveConfig net s').1
            ↔ config = VObj (<[k2 := v2]> {[k1 := v1]}).
Proof.
  intros Hold s' config.
  assert (Hnew : pending_plugin s' pluginName = VObj (<[k2 := v2]> {[k1 := v1]})).
  { subst s'. rewrite !pending_plugin_after, !decide_True, Hold by done. reflexivity. }
  rewrite saveConfig_sent, elem_of_app, elem_of_app_requests, elem_of_plugin_requests.
  unfold pending_plugin in Hnew. split.
  - intros [(section & sd & k & v & _ & _ & _ & Heq)
           |(plugins & name & cfg & Hcd & Hname & Heq)].
    + discriminate Heq.
    + apply plugin_request_inj in Heq. simplify_eq.
      rewrite Hcd in Hnew. cbn in Hnew. rewrite Hname in Hnew. exact Hnew.
  - intros ->.
    destruct (configData (globals s') !! "plugins") as [plugins|] eqn:Hcd;
      [| discriminate Hnew].
    cbn in Hnew. destruct (plugins !! pluginName) as [cfg|] eqn:Hname;
      [| discriminate Hnew].
    cbn in Hnew. subst cfg. right. by eexists plugins, pluginName, _.
Qed.

Lemma plugin_edits_saved_together_witness :
  plugin_request ("relay_controller",
                  VObj (<["pin" := VNum 17]> {["enabled" := VBool true]}))
    ∈ sent_since
        (after (updatePluginConfigValue "relay_controller" "pin" (VNum 17))
           (after (updatePluginConfigValue "relay_controller" "enabled" (VBool true))
                  initial))
        (exec saveConfig [NetAll (Fulfilled [])]
           (after (updatePluginConfigValue "relay_controller" "pin" (VNum 17))
              (after (updatePluginConfigValue "relay_controller" "enabled" (VBool true))
                     initial))).1.
Proof.
  apply (plugin_edits_saved_together initial "relay_controller" "enabled" "pin"
           (VBool true) (VNum 17) [NetAll (Fulfilled [])]); reflexivity.
Defined.

(** X5. A save can be retried, and a save that went through is not
    repeated. When one of the requests of [saveConfig] fails, the pending
    edits and the modal are as before, and a second save sends the same
    requests again; when all of them resolve, a second save sends
    nothing. *)
Theorem saveConfig_retry (s : State) (net : list reply) :
  (∀ e,
     let s' := (exec saveConfig [NetAll (Rejected e)] s).1 in
     configData (globals s') = configData (globals s)
     ∧ configModal_active (dom s') = configModal_active (dom s)
     ∧ sent_since s' (exec saveConfig net s').1 = sent_since s s')
  ∧ (∀ rs,
       let s' := (exec saveConfig [NetAll (Fulfilled rs)] s).1 in
       sent_since s' (exec saveConfig net s').1 = []).
Proof.
  split.
  - intros e s'. subst s'. rewrite !saveConfig_sent. split_and!; reflexivity.
  - intros rs s'. rewrite saveConfig_sent. subst s'. rewrite saveConfig_resolved.
    reflexivity.
Qed.

(** X6. Closing the settings modal (the Cancel button and the close button
    both call [closeConfigModal]) keeps every pending edit, on any page: a
    save made after closing sends what a save made before closing would
    have sent, and the edits are still there when the modal is opened
    again. *)
Theorem closeConfigModal_keeps_pending (s : State) (net : list reply) :
  let s' := after closeConfigModal s in
  configData (globals s') = configData (globals s)
  ∧ sent_since s' (exec saveConfig net s').1 = sent_since s (exec saveConfig net s).1
  ∧ configData (globals (after openConfigModal s')) = configData (globals s).
Proof.
  intros s'. rewrite !saveConfig_sent. subst s'. split_and!; reflexivity.
Qed.

(** ** Invariants of the event loop *)

Section Upholding.
Context (I : State → Prop) (T : Prop).

Lemma upholds_bind {A C : Type} (p : Prog A) (f : A → Prog C) (s : State) :
  upholds I T p s → (∀ a, safe I T (f a)) → upholds I T (p ≫= f) s.
Proof.
  intros Hp Hf. unfold mbind, Prog_bind. revert s Hp.
  induction p as [a|e|k IH|g k IH|req k IH|r k IH|reqs k IH]; intros s Hp; cbn in *.
  - by apply Hf.
  - exact Hp.
  - by apply IH.
  - by apply IH.
  - split; [apply Hp | intros x s' Hs'; apply IH; by apply Hp].
  - split; [apply Hp | intros x s' Hs'; apply IH; by apply Hp].
  - split; [apply Hp | intros x s' Hs'; apply IH; by apply Hp].
Qed.

Lemma upholds_try_finally {A : Type} (p : Prog A) (c : State → State) (s : State) :
  upholds I T p s → (∀ s', I s' → I (c s')) → upholds I T (try_finally p c) s.
Proof.
  intros Hp Hc. revert s Hp.
  induction p as [a|e|k IH|g k IH|req k IH|r k IH|reqs k IH]; intros s Hp; cbn in *.
  - by apply Hc.
  - destruct Hp as [Hs HT]. split; [by apply Hc | exact HT].
  - by apply IH.
  - by apply IH.
  - split; [apply Hp | intros x s' Hs'; apply IH; by apply Hp].
  - split; [apply Hp | intros x s' Hs'; apply IH; by apply Hp].
  - split; [apply Hp | intros x s' Hs'; apply IH; by apply Hp].
Qed.

Lemma safe_bind {A C : Type} (p : Prog A) (f : A → Prog C) :
  safe I T p → (∀ a, safe I T (f a)) → safe I T (p ≫= f).
Proof. intros Hp Hf s Hs. apply upholds_bind; [by apply Hp | exact Hf]. Qed.

Lemma safe_try_finally {A : Type} (p : Prog A) (c : State → State) :
  safe I T p → (∀ s, I s → I (c s)) → safe I T (try_finally p c).
Proof. intros Hp Hc s Hs. apply upholds_try_finally; [by apply Hp | exact Hc]. Qed.

Lemma safe_Ret {A : Type} (a : A) : safe I T (Ret a).
Proof. intros s Hs. exact Hs. Qed.

Lemma safe_Throw {A : Type} (e : exn) : T → safe I T (Throw (A := A) e).
Proof. intros HT s Hs. by split. Qed.

Lemma safe_Read {A : Type} (k : State → Prog A) :
  (∀ s, safe I T (k s)) → safe I T (Read k).
Proof. intros Hk s Hs. by apply Hk. Qed.

Lemma safe_Write {A : Type} (f : State → State) (k : Prog A) :
  (∀ s, I s → I (f s)) → safe I T k → safe I T (Write f k).
Proof. intros Hf Hk s Hs. by apply Hk, Hf. Qed.

Lemma safe_AwaitFetch {A : Type} (req : request) (k : settled response → Prog A) :
  (∀ s, I s → I (issue [req] s)) → (∀ r, safe I T (k r)) → safe I T (AwaitFetch req k).
Proof. intros Hreq Hk s Hs. split; [by apply Hreq | intros r s' Hs'; by apply Hk]. Qed.

Lemma safe_AwaitJson {A : Type} (r : response) (k : settled jsval → Prog A) :
  (∀ v, safe I T (k v)) → safe I T (AwaitJson r k).
Proof. intros Hk s Hs. split; [exact Hs | intros v s' Hs'; by apply Hk]. Qed.

Lemma safe_AwaitAll {A : Type} (reqs : list request)
    (k : settled (list response) → Prog A) :
  (∀ s, I s → I (issue reqs s)) → (∀ r, safe I T (k r)) → safe I T (AwaitAll reqs k).
Proof. intros Hreq Hk s Hs. split; [by apply Hreq | intros r s' Hs'; by apply Hk]. Qed.

(** One call run alone: the invariant holds at its end, and it has thrown
    only if it may. *)
Lemma upholds_exec {A : Type} (p : Prog A) (net : list reply) (s : State) :
  upholds I T p s →
  I (exec p net s).1 ∧ ∀ e, (exec p net s).2 = Threw e → T.
Proof.
  revert net s.
  induction p as [a|e|k IH|g k IH|req k IH|r k IH|reqs k IH]; intros net s Hp; cbn in *.
  - split; [exact Hp | discriminate].
  - split; [apply Hp | intros _ _; apply Hp].
  - by apply IH.
  - by apply IH.
  - destruct Hp as [Hs Hk].
    destruct net as [|[x|x] net]; cbn; try (split; [exact Hs | discriminate]).
    by apply IH, Hk.
  - destruct Hp as [Hs Hk]. by apply IH, Hk.
  - destruct Hp as [Hs Hk].
    destruct net as [|[x|x] net]; cbn; try (split; [exact Hs | discriminate]).
    by apply IH, Hk.
Qed.

(** One stretch of a call, up to where it is parked. *)
Lemma upholds_park (p : Prog unit) (s : State) :
  (T → ∀ e s', I s' → I (set_unhandled (unhandled (world s') ++ [e]) s')) →
  upholds I T p s →
  I (park (run p s)).1 ∧ safe_slot I T (park (run p s)).2.
Proof.
  intros Hpark. revert s.
  induction p as [a|e|k IH|g k IH|req k IH|r k IH|reqs k IH]; intros s Hp; cbn in *.
  - split; [exact Hp | exact Logic.I].
  - destruct Hp as [Hs HT]. split; [by apply Hpark | exact Logic.I].
  - by apply IH.
  - by apply IH.
  - split; [apply Hp | intros x s' Hs'; by apply Hp].
  - split; [apply Hp | intros x s' Hs'; by apply Hp].
  - split; [apply Hp | intros x s' Hs'; by apply Hp].
Qed.

Context (allowed : call → Prop).
Hypothesis handlers_safe : ∀ c, allowed c → safe I T (handler c).
Hypothesis unhandled_safe :
  T → ∀ e s, I s → I (set_unhandled (unhandled (world s) ++ [e]) s).
Hypothesis clock_safe : ∀ t s, I s → I (set_now t s).

Lemma step_safe (l : loop) (e : event) :
  calls_only allowed e →
  I (page l) → Forall (safe_slot I T) (tasks l) →
  I (page (step l e)) ∧ Forall (safe_slot I T) (tasks (step l e)).
Proof.
  intros He Hpage Htasks.
  assert (Hresume : ∀ i p, upholds I T p (page l) →
             I (page (resume l i p)) ∧ Forall (safe_slot I T) (tasks (resume l i p))).
  { intros i p Hp. destruct (upholds_park p (page l) unhandled_safe Hp) as [H1 H2].
    unfold resume. cbn. split; [exact H1 |].
    destruct (decide (i < length (tasks l))) as [Hi|Hi].
    - by apply Forall_insert.
    - rewrite list_insert_ge by lia. exact Htasks. }
  destruct e as [c|i r|i|i r|t]; cbn.
  - destruct (upholds_park (handler c) (page l) unhandled_safe
                (handlers_safe c He (page l) Hpage)) as [H1 H2].
    split; [exact H1 |]. apply Forall_app. split; [exact Htasks |].
    constructor; [exact H2 | constructor].
  - destruct (tasks l !! i) as [[[a|e|req k|r' k|reqs k]|]|] eqn:Hi; try by split.
    apply Hresume. pose proof (Forall_lookup_1 _ _ _ _ Htasks Hi) as Hk. by apply Hk.
  - destruct (tasks l !! i) as [[[a|e|req k|r' k|reqs k]|]|] eqn:Hi; try by split.
    apply Hresume. pose proof (Forall_lookup_1 _ _ _ _ Htasks Hi) as Hk. by apply Hk.
  - destruct (tasks l !! i) as [[[a|e|req k|r' k|reqs k]|]|] eqn:Hi; try by split.
    apply Hresume. pose proof (Forall_lookup_1 _ _ _ _ Htasks Hi) as Hk. by apply Hk.
  - split; [by apply clock_safe | exact Htasks].
Qed.

(** An invariant that every allowed call upholds holds after any run of
    the event loop that makes allowed calls only, however the calls and the
    answers to their requests interleave. *)
Lemma steps_safe (es : list event) (l : loop) :
  Forall (calls_only allowed) es →
  I (page l) → Forall (safe_slot I T) (tasks l) →
  I (page (steps l es)) ∧ Forall (safe_slot I T) (tasks (steps l es)).
Proof.
  revert l. induction es as [|e es IH]; intros l Hes Hpage Htasks; [by split |].
  apply Forall_cons in Hes as [He Hes]. cbn.
  destruct (step_safe l e He Hpage Htasks) as [H1 H2]. by apply IH.
Qed.
End Upholding.

Lemma upholds_try_catch {A : Type} (I : State → Prop) (T : Prop)
    (p : Prog A) (h : exn → Prog A) (s : State) :
  upholds I True p s → (∀ e, safe I T (h e)) → upholds I T (try_catch p h) s.
Proof.
  intros Hp Hh. revert s Hp.
  induction p as [a|e|k IH|g k IH|req k IH|r k IH|reqs k IH]; intros s Hp; cbn in *.
  - exact Hp.
  - apply Hh, Hp.
  - by apply IH.
  - by apply IH.
  - split; [apply Hp | intros x s' Hs'; apply IH; by apply Hp].
  - split; [apply Hp | intros x s' Hs'; apply IH; by apply Hp].
  - split; [apply Hp | intros x s' Hs'; apply IH; by apply Hp].
Qed.

(** Inside a [try] with a [catch] anything may be thrown. *)
Lemma safe_try_catch {A : Type} (I : State → Prop) (T : Prop)
    (p : Prog A) (h : exn → Prog A) :
  safe I True p → (∀ e, safe I T (h e)) → safe I T (try_catch p h).
Proof. intros Hp Hh s Hs. apply upholds_try_catch; [by apply Hp | exact Hh]. Qed.

Lemma all_calls (es : list event) : Forall (calls_only (λ _, True)) es.
Proof. induction es as [|[] es IH]; by constructor. Qed.

(** Proves [safe I T p] for a program written with the combinators; [tac]
    proves that a write keeps [I], and may take a whole function at once. *)
Ltac safe_step tac :=
  lazymatch goal with
  | |- True => exact I
  | |- ∀ _, _ => intro
  | |- safe _ _ (mbind _ _) => apply safe_bind
  | |- safe _ _ (bind _ _) => apply safe_bind
  | |- safe _ _ (try_catch _ _) => apply safe_try_catch
  | |- safe _ _ (try_finally _ _) => apply safe_try_finally
  | |- safe _ _ (Ret _) => apply safe_Ret
  | |- safe _ _ (Throw _) => apply safe_Throw
  | |- safe _ _ (Read _) => apply safe_Read
  | |- safe _ _ (Write _ _) => apply safe_Write
  | |- safe _ _ (AwaitFetch _ _) => apply safe_AwaitFetch
  | |- safe _ _ (AwaitJson _ _) => apply safe_AwaitJson
  | |- safe _ _ (AwaitAll _ _) => apply safe_AwaitAll
  | |- safe _ _ (if ?b then _ else _) => destruct b
  | |- safe _ _ (match ?x with _ => _ end) => destruct x
  | |- safe _ _ ?p =>
      first [tac | let h := head_of p in unfold h | progress cbv beta zeta | progress cbn]
  | |- _ => tac
  end.

Ltac safe_tac tac := repeat safe_step tac.

Ltac rejections_tac :=
  idtac;
  lazymatch goal with
  | |- safe _ _ _ => fail
  | |- _ => unfold rejections in *; cbn; assumption
  end.

Ltac unchanged_tac :=
  idtac;
  lazymatch goal with
  | |- safe _ _ _ => fail
  | |- _ => unfold unchanged in *; cbn; assumption
  end.

Lemma guarded_safe (u : list exn) (c : call) :
  guarded c = true → safe (rejections u) False (handler c).
Proof.
  intros Hc. destruct c; try discriminate Hc; clear Hc; unfold handler.
  all: safe_tac rejections_tac.
Qed.

(** X7. The calls whose awaits lie inside a [try] with a [catch] never
    reject. However such calls, the answers to their requests and the
    clock interleave, the event loop records no unhandled rejection; and
    such a call run alone never ends by throwing, whatever the page and
    whatever the network answers. *)
Theorem guarded_calls_never_reject (s : State) :
  (∀ es, Forall (calls_only (λ c, guarded c = true)) es →
         unhandled (world (page (steps (Loop s []) es))) = unhandled (world s))
  ∧ (∀ c net e, guarded c = true → (exec (handler c) net s).2 ≠ Threw e).
Proof.
  split.
  - intros es Hes.
    apply (steps_safe (rejections (unhandled (world s))) False (λ c, guarded c = true));
      try done.
    intros c Hc. by apply guarded_safe.
  - intros c net e Hc Hthrew.
    apply (upholds_exec (rejections (unhandled (world s))) False (handler c) net s)
      in Hthrew; [exact Hthrew |].
    by apply guarded_safe.
Qed.

Lemma guarded_calls_never_reject_witness :
  unhandled (world (page (steps (Loop initial [])
                            [Call UpdateStatus;
                             Fetched 0 (Rejected (Error "Failed to fetch"))])))
  = unhandled (world initial).
Proof.
  apply (proj1 (guarded_calls_never_reject initial)). repeat constructor.
Defined.

(** X8. The printer and file actions have no handler around their fetch.
    When the fetch is rejected, or when the body of the answer is not
    JSON, the call ends by throwing (the rejection, or the parse error) and
    shows no toast; in the event loop the rejection of its promise is
    handled by nobody. *)
Theorem unguarded_calls_reject (s : State) (c : call) :
  unguarded c = true →
  (∀ e, (exec (handler c) [Net (Rejected e)] s).2 = Threw e
        ∧ alertArea (dom (exec (handler c) [Net (Rejected e)] s).1) = alertArea (dom s))
  ∧ (∀ r, payload r = None →
          (exec (handler c) [Net (Fulfilled r)] s).2 = Threw SyntaxError
          ∧ alertArea (dom (exec (handler c) [Net (Fulfilled r)] s).1) = alertArea (dom s))
  ∧ (∀ e, unhandled (world (page (steps (Loop s []) [Call c; Fetched 0 (Rejected e)])))
          = unhandled (world s) ++ [e]).
Proof.
  intros Hc.
  destruct c as [| | | | | | |[]| | | |? []| | | | | | | | | | | | | | | ];
    try discriminate Hc; clear Hc;
    unfold handler, connectPrinter, disconnectPrinter, selectFile, printFile, pausePrint,
      resumePrint, stopPrint, homeZ, moveZ, recoverUSB, deleteFile, post_and_report.
  all: split_and!;
    [ intros e; open_console; split; reflexivity
    | intros r Hr;
      assert (Hbody : json_of r = Rejected SyntaxError) by (unfold json_of; by rewrite Hr);
      open_console; rewrite Hbody; cbn; split; reflexivity
    | intros e; open_console; reflexivity ].
Qed.

Lemma unguarded_calls_reject_witness :
  (exec (handler PausePrint) [Net (Rejected (Error "Failed to fetch"))] initial).2
  = Threw (Error "Failed to fetch").
Proof.
  apply (proj1 (unguarded_calls_reject initial PausePrint eq_refl)
           (Error "Failed to fetch")).
Defined.

(** X9. Pending edits survive everything but the settings calls. However
    the other calls (status polls, printer, file, plugin and relay actions,
    opening and closing the modal, a declined reset), the answers to their
    requests and the clock interleave, the pending edits are the same
    afterwards. *)
Theorem pending_edits_survive (s : State) (es : list event) :
  Forall (calls_only (λ c, edits_config c = false)) es →
  configData (globals (page (steps (Loop s []) es))) = configData (globals s).
Proof.
  intros Hes.
  apply (steps_safe (unchanged (λ s, configData (globals s)) (configData (globals s)))
           True (λ c, edits_config c = false)); try done.
  intros c Hc. destruct c as [| | | | | | | | | | | | | | | | |[]| | | | | | | | |];
    try discriminate Hc; clear Hc; unfold handler.
  all: try (unfold resetConfig; cbn [negb]).
  all: safe_tac unchanged_tac.
Qed.

Lemma pending_edits_survive_witness :
  configData (globals (page (steps (Loop one_edit [])
                              [Call UpdateStatus; Call CloseConfigModal;
                               Fetched 0 (Rejected (Error "Failed to fetch"));
                               Call (ResetConfig false)])))
  = configData (globals one_edit).
Proof.
  apply (pending_edits_survive one_edit). repeat constructor.
Defined.

(** X10. The selected file is changed by [selectFile] only, and the relay
    buttons by the relay calls only, however the other calls, the answers
    to their requests and the clock interleave. In particular a status
    poll never sets the selection, although the status payload carries the
    backend's [selected_file]. *)
Theorem selection_and_relays_untouched (s : State) (es : list event) :
  (Forall (calls_only (λ c, selects c = false)) es →
     selectedFile (globals (page (steps (Loop s []) es))) = selectedFile (globals s))
  ∧ (Forall (calls_only (λ c, drives_relay c = false)) es →
       relayButtons (dom (page (steps (Loop s []) es))) = relayButtons (dom s)).
Proof.
  split; intros Hes.
  - apply (steps_safe (unchanged (λ s, selectedFile (globals s)) (selectedFile (globals s)))
             True (λ c, selects c = false)); try done.
    intros c Hc. destruct c; try discriminate Hc; clear Hc; unfold handler.
    all: safe_tac unchanged_tac.
  - apply (steps_safe (unchanged (λ s, relayButtons (dom s)) (relayButtons (dom s)))
             True (λ c, drives_relay c = false)); try done.
    intros c Hc. destruct c; try discriminate Hc; clear Hc; unfold handler.
    all: safe_tac unchanged_tac.
Qed.

Lemma selection_and_relays_untouched_witness :
  selectedFile (globals (page (steps (Loop initial [])
                                [Call UpdateStatus;
                                 Fetched 0 (answers printing_status); Parsed 0])))
  = selectedFile (globals initial).
Proof.
  apply (proj1 (selection_and_relays_untouched initial
                  [Call UpdateStatus; Fetched 0 (answers printing_status); Parsed 0])).
  repeat constructor.
Defined.

(** ** The console, in the event loop *)

Lemma addConsoleMessage_console_ok (message : text) (type : string) (s : State) :
  length (consoleLines (globals s)) ≤ 50 →
  console_ok (after (addConsoleMessage message type) s).
Proof.
  intros Hlen. unfold after, addConsoleMessage, console_ok. cbn.
  case_bool_decide as Hfull; cbn.
  - split; [| reflexivity].
    destruct (consoleLines (globals s)) as [|line lines]; cbn in *;
      rewrite ?length_app in *; cbn in *; lia.
  - split; [lia | reflexivity].
Qed.

Lemma safe_addConsoleMessage (T : Prop) (message : text) (type : string) :
  safe console_ok T (addConsoleMessage message type).
Proof.
  intros s [Hlen _].
  pose proof (addConsoleMessage_console_ok message type s Hlen) as Hok.
  unfold after, addConsoleMessage in *. cbn in *.
  case_bool_decide; cbn in *; exact Hok.
Qed.

Ltac console_tac :=
  idtac;
  lazymatch goal with
  | |- safe _ _ (addConsoleMessage _ _) => apply safe_addConsoleMessage
  | |- safe _ _ _ => fail
  | |- _ => unfold console_ok in *; cbn; assumption
  end.

Lemma handlers_console_ok (c : call) : safe console_ok True (handler c).
Proof.
  destruct c; unfold handler.
  all: safe_tac console_tac.
Qed.

(** X11. The console stays within its bound and in step with its buffer.
    A message logged on any page whose buffer holds at most 50 lines
    leaves at most 50 lines, all of them shown in the console area; and
    from then on this holds however the calls, the answers to their
    requests and the clock interleave. *)
Theorem console_stays_in_step (s : State) :
  (length (consoleLines (globals s)) ≤ 50 →
     ∀ message type, console_ok (after (addConsoleMessage message type) s))
  ∧ (console_ok s → ∀ es, console_ok (page (steps (Loop s []) es))).
Proof.
  split.
  - intros Hlen message type. by apply addConsoleMessage_console_ok.
  - intros Hs es.
    apply (steps_safe console_ok True (λ _, True)); try done.
    + intros c _. apply handlers_console_ok.
    + apply all_calls.
Qed.

Lemma console_stays_in_step_witness :
  console_ok (page (steps (Loop initial [])
                      [Call ConnectPrinter; Call UpdateStatus;
                       Fetched 0 (Rejected (Error "Failed to fetch"))])).
Proof.
  apply (proj2 (console_stays_in_step initial)).
  split; [cbn; lia | reflexivity].
Defined.

(** ** The printer buttons *)

Lemma is_str_distinct (v : jsval) (a b : string) :
  a ≠ b → is_str v a = true → is_str v b = false.
Proof.
  intros Hab. destruct v; try discriminate. cbn.
  intros ->%String.eqb_eq. by apply String.eqb_neq.
Qed.

Lemma updateButtons_consistent (connected state : jsval) (none : bool) :
  buttons_consistent
    (mkButtons (truthy connected)
               (negb (truthy connected))
               (negb (truthy connected) || is_str state "PRINTING"
                || is_str state "PAUSED" || none)
               (negb (truthy connected) || negb (is_str state "PRINTING"))
               (negb (truthy connected) || negb (is_str state "PAUSED"))
               (negb (truthy connected)
                || (negb (is_str state "PRINTING") && negb (is_str state "PAUSED")))).
Proof.
  unfold buttons_consistent. cbn.
  destruct (is_str state "PRINTING") eqn:Hprinting.
  - rewrite (is_str_distinct state "PRINTING" "PAUSED") by done.
    destruct (truthy connected), none; cbn; repeat split; intros; done.
  - destruct (truthy connected), (is_str state "PAUSED"), none; cbn; repeat split;
      intros; done.
Qed.

Ltac buttons_tac :=
  idtac;
  lazymatch goal with
  | |- safe _ _ _ => fail
  | |- _ => unfold buttons_ok in *; cbn;
            first [assumption | apply updateButtons_consistent]
  end.

Lemma handlers_buttons_ok (c : call) : safe buttons_ok True (handler c).
Proof.
  destruct c; unfold handler.
  all: safe_tac buttons_tac.
Qed.

(** X12. The printer buttons are always consistent once [updateButtons]
    has run. Whatever status it is given, an [updateButtons] that runs to
    its end leaves the six buttons so that: exactly one of Connect and
    Disconnect is enabled; while disconnected Start, Pause, Resume and Stop
    are disabled; Pause and Resume are never both enabled; Stop is enabled
    exactly when Pause or Resume is; Start and Stop are never both
    enabled. From then on this holds however the calls, the answers to
    their requests and the clock interleave. *)
Theorem buttons_stay_consistent (s : State) :
  (∀ status, (run (updateButtons status) s).2 = Done tt →
             buttons_ok (run (updateButtons status) s).1)
  ∧ (buttons_ok s → ∀ es, buttons_ok (page (steps (Loop s []) es))).
Proof.
  split.
  - intros status. unfold updateButtons, buttons_ok.
    destruct status as [| | | | | | |o]; try discriminate; cbn;
      try (destruct (default VUndef (o !! "print_status")); try discriminate; cbn);
      intros _;
      first [apply updateButtons_consistent | apply (updateButtons_consistent _ VUndef)].
  - intros Hs es.
    apply (steps_safe buttons_ok True (λ _, True)); try done.
    + intros c _. apply handlers_buttons_ok.
    + apply all_calls.
Qed.

Lemma buttons_stay_consistent_witness :
  buttons_ok (run (updateButtons printing_status) initial).1.
Proof.
  apply (proj1 (buttons_stay_consistent initial) printing_status). reflexivity.
Defined.

(** ** Selecting a file *)

(** X13. [selectFile] sets the selection exactly when the backend reports
    success. After a successful [selectFile filename] the selection is
    [filename], and [startPrint] then prints that file (the name not being
    empty); after an answer whose [success] is not true the selection is
    the one from before. *)
Theorem selectFile_sets_selection (s : State) (filename : string) (r : response)
    (result : jsval) :
  payload r = Some result →
  let s' := (exec (selectFile filename) [Net (Fulfilled r)] s).1 in
  (truthy (member result "success") = true →
     selectedFile (globals s') = Some filename
     ∧ (filename ≠ "" → ∀ net, exec startPrint net s' = exec (printFile filename) net s'))
  ∧ (truthy (member result "success") = false → result ≠ VUndef → result ≠ VNull →
       selectedFile (globals s') = selectedFile (globals s)).
Proof.
  intros Hp s'.
  assert (Hbody : json_of r = Fulfilled result) by (unfold json_of; by rewrite Hp).
  split.
  - intros Hok.
    assert (Hsel : selectedFile (globals s') = Some filename).
    { subst s'. unfold selectFile. destruct result; try discriminate Hok. cbn in Hok.
      open_console; rewrite Hbody; cbn; rewrite Hok; open_console; reflexivity. }
    split; [exact Hsel |].
    intros Hne net. unfold startPrint. cbn. rewrite Hsel.
    by rewrite (no_file_named filename Hne).
  - intros Hno Hundef Hnull. subst s'. unfold selectFile.
    destruct result; try done; cbn in Hno;
      open_console; rewrite Hbody; cbn; rewrite ?Hno; open_console; reflexivity.
Qed.

Lemma selectFile_sets_selection_witness :
  selectedFile
    (globals (exec (selectFile "cube.ctb")
                   [Net (answers (VObj (<["success" := VBool true]> ∅)))] initial).1)
  = Some "cube.ctb".
Proof.
  apply (proj1 (selectFile_sets_selection initial "cube.ctb"
                  (Response true 200 (Some (VObj (<["success" := VBool true]> ∅))))
                  (VObj (<["success" := VBool true]> ∅)) eq_refl)).
  reflexivity.
Defined.

(** ** Status polls *)

(** X14. A status poll is silent. Whatever is answered, [updateStatus]
    sends the one GET to /api/status, shows no toast and logs nothing to
    the console; and when the fetch is rejected or the body is not JSON it
    leaves the whole page as it was and writes one line to
    [console.error]. *)
Theorem updateStatus_is_silent (s : State) (reply : settled response) :
  let out := exec updateStatus [Net reply] s in
  alertArea (dom out.1) = alertArea (dom s)
  ∧ consoleLines (globals out.1) = consoleLines (globals s)
  ∧ requests (world out.1) = requests (world s) ++ [GET "/api/status"]
  ∧ (∀ e, unreadable reply = Some e →
          dom out.1 = dom s ∧ globals out.1 = globals s
          ∧ console_errors (world out.1)
            = console_errors (world s) ++ [[Lit "Status error:"; Lit (err_message e)]]).
Proof.
  intros out. subst out. split_and!.
  - by rewrite (stable_exec (λ s, alertArea (dom s))) by obeys_tac.
  - by rewrite (stable_exec (λ s, consoleLines (globals s))) by obeys_tac.
  - unfold updateStatus. destruct reply as [r|e]; cbn; [| reflexivity].
    unfold json_of. destruct (payload r) as [status|]; cbn; [| reflexivity].
    by rewrite (stable_exec (λ s, requests (world s))) by obeys_tac.
  - intros e He. unfold updateStatus. destruct reply as [r|e']; cbn in *.
    + unfold json_of. destruct (payload r); [discriminate He |].
      injection He as <-. cbn. by destruct s as [g d []].
    + injection He as <-. by destruct s as [g d []].
Qed.

Lemma updateStatus_is_silent_witness :
  dom (exec updateStatus [Net (Rejected (Error "Failed to fetch"))] initial).1
  = dom initial.
Proof.
  destruct (updateStatus_is_silent initial (Rejected (Error "Failed to fetch")))
    as (_ & _ & _ & Hsilent).
  apply (Hsilent (Error "Failed to fetch")). reflexivity.
Defined.

(** Running the body of a [try] one step at a time: the state is left as
    the writes build it, and only the program is reduced. *)
Lemma exec_try_Write {A : Type} (f : State → State) (k : Prog A) (h : exn → Prog A)
    (net : list reply) (s : State) :
  exec (try_catch (Write f k) h) net s = exec (try_catch k h) net (f s).
Proof. reflexivity. Qed.

Lemma exec_try_Read {A : Type} (k : State → Prog A) (h : exn → Prog A)
    (net : list reply) (s : State) :
  exec (try_catch (Read k) h) net s = exec (try_catch (k s) h) net s.
Proof. reflexivity. Qed.

Lemma updatePrintingOverlay_keeps_view (status : jsval) :
  stable status_view (updatePrintingOverlay status).
Proof. obeys_tac. Qed.

(** Splits on the test the program is stuck on. *)
Ltac split_on p :=
  lazymatch p with
  | bind ?q _ => split_on q
  | mbind _ ?q => split_on q
  | try_catch ?q _ => split_on q
  | if ?b then _ else _ => destruct b eqn:?
  | match ?v with _ => _ end => destruct v eqn:?
  end.

Ltac poll_step :=
  lazymatch goal with
  | |- context [exec (try_catch ?p ?h) ?net ?s] =>
      lazymatch p with
      | Write _ _ => rewrite exec_try_Write
      | Read _ => rewrite exec_try_Read; cbv beta
      | updatePrintingOverlay _ => fail
      | _ => first
          [ let p' := eval cbn -[updatePrintingOverlay] in p in
            progress change (exec (try_catch p h) net s) with (exec (try_catch p' h) net s)
          | split_on p ]
      end
  end.

(** X15. What a poll shows. When the status payload carries a numeric
    progress and Z position, [updateStatus] leaves the status panel and the
    six printer buttons exactly as the payload and the selected file call
    for, whatever they showed before and whether or not the overlay is
    up: the connection field and its class, the state and its class, the
    progress to one decimal, the width of the progress bar, the Z position
    to two decimals, and the [disabled] flag of each button. *)
Theorem poll_shows_status (s : State) (r : response) (status : jsval) :
  payload r = Some status → complete_status status = true →
  status_view (exec updateStatus [Net (Fulfilled r)] s).1
  = status_display status (selectedFile (globals s)).
Proof.
  intros Hp Hc. unfold complete_status in *.
  apply andb_true_iff in Hc as [Hprogress Hz].
  destruct status as [| | | | | | |o]; try discriminate Hz. cbn in Hprogress, Hz.
  destruct (o !! "print_status") as [[| | | | | | |ps]|] eqn:Hps;
    try discriminate Hprogress.
  cbn in Hprogress.
  destruct (default VUndef (ps !! "progress_percent")) eqn:Hpp;
    try discriminate Hprogress.
  all: destruct (default VUndef (o !! "z_position")) eqn:Hzz; try discriminate Hz.
  all: unfold updateStatus, status_display.
  all: cbn [exec fetch mbind Prog_bind bind try_catch await json].
  all: unfold json_of; rewrite Hp.
  all: cbn [member default from_option id]; rewrite Hps; cbn [member default from_option id].
  all: rewrite Hpp, Hzz.
  all: cbn [exec fetch mbind Prog_bind bind try_catch await json issue].
  all: repeat first [poll_step | progress rewrite ?Hps, ?Hpp, ?Hzz
                    | progress cbn [default from_option id]].
  all: rewrite (stable_exec status_view)
    by (apply obeys_try_catch; [apply updatePrintingOverlay_keeps_view | obeys_tac]).
  all: try reflexivity.
  all: try (rewrite (is_str_distinct _ "PRINTING" "PAUSED") by done; reflexivity).
Qed.

Lemma poll_shows_status_witness :
  status_view (exec updateStatus [Net (answers printing_status)] initial).1
  = status_display printing_status (selectedFile (globals initial)).
Proof.
  apply (poll_shows_status initial (Response true 200 (Some printing_status))
           printing_status eq_refl eq_refl).
Defined.

(** The overlay flag and the start time after a poll. *)
Lemma print_clock_after_poll (s : State) (r : response) (status : jsval) :
  payload r = Some status →
  let s' := (exec updateStatus [Net (Fulfilled r)] s).1 in
  (state_of status = VStr "PRINTING" →
     print_clock s'
     = (true, if overlay_shown s || negb (no_time (printStartTime (globals s)))
              then printStartTime (globals s) else Some (now (world s))))
  ∧ (state_of status = VStr "PAUSED" → print_clock s' = (true, printStartTime (globals s)))
  ∧ (state_of status = VStr "IDLE" → print_clock s' = (false, None)).
Proof.
  intros Hp s'. subst s'. unfold updateStatus. cbn. unfold json_of. rewrite Hp. cbn.
  destruct status as [| | | | | |? |o];
    try (split_and!; intros Hs; discriminate Hs). cbn.
  destruct (o !! "print_status") as [[| | | | | |? |ps]|] eqn:Hps;
    try (split_and!; intros Hs; discriminate Hs). cbn.
  destruct (ps !! "state") as [st|] eqn:Hst; cbn;
    [| split_and!; intros Hs; discriminate Hs].
  unfold overlay_shown.
  split_and!; intros Hs; subst st; cbn.
  - destruct (truthy _); cbn.
    all: destruct (overlay_active (printingOverlay (dom s))) eqn:Hact; cbn.
    all: try destruct (no_time _); cbn.
    all: rewrite (stable_exec print_clock) by obeys_tac.
    all: unfold print_clock; cbn; rewrite ?Hact; reflexivity.
  - destruct (truthy _); cbn.
    all: destruct (overlay_active (printingOverlay (dom s))) eqn:Hact; cbn.
    all: rewrite (stable_exec print_clock) by obeys_tac.
    all: unfold print_clock; cbn; rewrite ?Hact; reflexivity.
  - destruct (truthy _); cbn.
    all: rewrite (stable_exec print_clock) by obeys_tac.
    all: reflexivity.
Qed.

(** X16. The print clock. A poll that finds the printer PRINTING leaves
    the overlay up and starts the clock at the present time only if it is
    the poll that brings the overlay up and no start time is set; a poll
    that finds it PAUSED leaves the overlay up and the start time as it
    is; a poll that finds it IDLE takes the overlay down and clears the
    start time. *)
Theorem poll_sets_print_clock (s : State) (r : response) (status : jsval) :
  payload r = Some status →
  let s' := (exec updateStatus [Net (Fulfilled r)] s).1 in
  (state_of status = VStr "PRINTING" →
     print_clock s'
     = (true, if overlay_shown s || negb (no_time (printStartTime (globals s)))
              then printStartTime (globals s) else Some (now (world s))))
  ∧ (state_of status = VStr "PAUSED" → print_clock s' = (true, printStartTime (globals s)))
  ∧ (state_of status = VStr "IDLE" → print_clock s' = (false, None)).
Proof. apply print_clock_after_poll. Qed.

Lemma poll_sets_print_clock_witness :
  print_clock (exec updateStatus [Net (answers (in_state "IDLE"))] initial).1
  = (false, None).
Proof.
  apply (poll_sets_print_clock initial (Response true 200 (Some (in_state "IDLE")))
           (in_state "IDLE") eq_refl). reflexivity.
Defined.



(** ** The time left *)

Lemma Qfloor_div_bounds (y : Q) (d : Z) :
  (0 < d)%Z → (0 <= y)%Q →
  (0 ≤ Qfloor (y / inject_Z d))%Z
  ∧ (inject_Z (d * Qfloor (y / inject_Z d)) <= y)%Q
  ∧ (y < inject_Z (d * Qfloor (y / inject_Z d) + d))%Q.
Proof.
  intros Hd Hy.
  assert (Hd' : (0 < inject_Z d)%Q)
    by (change (inject_Z 0 < inject_Z d)%Q; rewrite <- Zlt_Qlt; exact Hd).
  assert (Hq : (0 <= y / inject_Z d)%Q).
  { apply Qle_shift_div_l; [exact Hd' | lra]. }
  pose proof (Qfloor_le (y / inject_Z d)) as Hlo.
  pose proof (Qlt_floor (y / inject_Z d)) as Hhi.
  split_and!.
  - change 0%Z with (Qfloor 0). by apply Qfloor_resp_le.
  - rewrite inject_Z_mult.
    apply (Qmult_le_l _ _ (inject_Z d) Hd') in Hlo.
    rewrite Qmult_div_r in Hlo by lra. exact Hlo.
  - rewrite inject_Z_plus, inject_Z_mult.
    apply (Qmult_lt_l _ _ (inject_Z d) Hd') in Hhi.
    rewrite Qmult_div_r in Hhi by lra.
    rewrite inject_Z_plus in Hhi. change (inject_Z 1) with 1%Q in Hhi. lra.
Qed.

(** X18. [formatTime] splits a time into whole hours and minutes. For a
    number of seconds [x] that is not negative there are h ≥ 0 and
    0 ≤ m < 60 with 3600 h + 60 m ≤ x < 3600 h + 60 m + 60 (the seconds
    are dropped, not rounded), and the text is "<h>h <m>m" when h > 0 and
    "<m>m" when h = 0. *)
Theorem formatTime_hours_minutes (x : Q) :
  (0 <= x)%Q →
  ∃ h m : Z,
    (0 ≤ h)%Z ∧ (0 ≤ m < 60)%Z
    ∧ (inject_Z (3600 * h + 60 * m) <= x)%Q
    ∧ (x < inject_Z (3600 * h + 60 * m + 60))%Q
    ∧ formatTime (VNum x)
      = if (0 <? h)%Z
        then [Val (VNum (inject_Z h)); Lit "h "; Val (VNum (inject_Z m)); Lit "m"]
        else [Val (VNum (inject_Z m)); Lit "m"].
Proof.
  intros Hx.
  destruct (Qfloor_div_bounds x 3600 eq_refl Hx) as (Hh & Hlo & Hhi).
  set (h := Qfloor (x / inject_Z 3600)) in *.
  set (y := (x - inject_Z 3600 * inject_Z h)%Q).
  assert (Hy : (0 <= y)%Q).
  { unfold y. rewrite inject_Z_mult in Hlo. lra. }
  destruct (Qfloor_div_bounds y 60 eq_refl Hy) as (Hm & Hmlo & Hmhi).
  set (m := Qfloor (y / inject_Z 60)) in *.
  exists h, m.
  rewrite inject_Z_plus, inject_Z_mult in Hhi.
  rewrite inject_Z_mult in Hlo, Hmlo.
  rewrite inject_Z_plus, inject_Z_mult in Hmhi.
  assert (Hm60 : (m < 60)%Z).
  { rewrite Zlt_Qlt. unfold y in Hmlo.
    change (inject_Z 3600) with 3600%Q in *. change (inject_Z 60) with 60%Q in *. lra. }
  split_and!; try done.
  - rewrite inject_Z_plus, !inject_Z_mult. unfold y in Hmlo.
    change (inject_Z 3600) with 3600%Q in *. change (inject_Z 60) with 60%Q in *. lra.
  - rewrite !inject_Z_plus, !inject_Z_mult. unfold y in Hmhi.
    change (inject_Z 3600) with 3600%Q in *. change (inject_Z 60) with 60%Q in *. lra.
  - unfold formatTime, js_rem, js_div, math_floor, js_gt. cbn [to_num].
    change (Qeq_bool 3600 0) with false. change (Qeq_bool 60 0) with false.
    cbn [to_num].
    assert (Hq : Qle_bool 0 (x / 3600) = true).
    { apply Qle_bool_iff. apply Qle_shift_div_l; lra. }
    rewrite Hq. cbn [to_num]. change (Qeq_bool 60 0) with false. cbn [to_num].
    assert (Hgt : ∀ z, negb (Qle_bool (inject_Z z) 0) = (0 <? z)%Z).
    { intros z. unfold Qle_bool. cbn. rewrite Z.mul_1_r.
      destruct (Z.leb_spec z 0), (Z.ltb_spec 0 z); try reflexivity; lia. }
    rewrite Hgt. subst h m y. destruct (0 <? _)%Z; reflexivity.
Qed.

Lemma formatTime_hours_minutes_witness :
  ∃ h m : Z,
    (0 ≤ h)%Z ∧ (0 ≤ m < 60)%Z
    ∧ (inject_Z (3600 * h + 60 * m) <= 3725)%Q
    ∧ (3725 < inject_Z (3600 * h + 60 * m + 60))%Q
    ∧ formatTime (VNum 3725)
      = if (0 <? h)%Z
        then [Val (VNum (inject_Z h)); Lit "h "; Val (VNum (inject_Z m)); Lit "m"]
        else [Val (VNum (inject_Z m)); Lit "m"].
Proof.
  apply (formatTime_hours_minutes 3725). discriminate.
Defined.

(** ** What the relay calls do to the toolbar *)

(** X19. [setRelayState] answers with a boolean and never with a toast.
    It returns [true] exactly when the answer is an HTTP success whose
    body has a true [success]; then the button of the relay, if the
    toolbar has one, is rendered for the state the backend reports (not for
    the state that was asked for). In every other case it returns [false],
    leaves the buttons alone and writes one line to [console.error]. *)
Theorem setRelayState_result (s : State) (relayId : string) (state : bool)
    (reply : settled response) :
  let out := exec (setRelayState relayId state) [Net reply] s in
  out.2 = Returned (reports_success reply)
  ∧ alertArea (dom out.1) = alertArea (dom s)
  ∧ relayButtons (dom out.1)
    = (if reports_success reply
       then rendered relayId (reported_state reply) (relayButtons (dom s))
       else relayButtons (dom s))
  ∧ (reports_success reply = false →
       length (console_errors (world out.1)) = S (length (console_errors (world s)))).
Proof.
  unfold setRelayState, reports_success, reported_state.
  destruct reply as [[[] st [data|]]|e]; cbn; unfold json_of; cbn;
    try (split_and!; [reflexivity .. | intros _; rewrite length_app; cbn; lia]).
  destruct data; cbn;
    try (split_and!; [reflexivity .. | intros _; rewrite length_app; cbn; lia]).
  destruct (truthy (default VUndef (o !! "success"))) eqn:Hok; cbn.
  - unfold rendered.
    destruct (relayButtons (dom s) !! relayId) as [b|]; cbn;
      (split_and!; [reflexivity .. | discriminate]).
  - split_and!; [reflexivity .. | intros _; rewrite length_app; cbn; lia].
Qed.

Lemma setRelayState_result_witness :
  length (console_errors
            (world (exec (setRelayState "relay_1" true) [Net relay_refused] initial).1))
  = S (length (console_errors (world initial))).
Proof.
  apply (setRelayState_result initial "relay_1" true relay_refused). reflexivity.
Defined.

(** X20. What one toggle does. A [toggleRelay] that starts with the flag
    down and gets its answer, whatever the answer is, returns normally,
    lowers the flag again and has shown exactly one toast. It renders the
    button of its relay only when the answer is an HTTP success whose body
    has a true [success], and then for the state the backend reports; it
    never touches the button of another relay. *)
Theorem toggleRelay_outcome (s : State) (relayId : string) (reply : settled response) :
  relayToggling (globals s) = false →
  let out := exec (toggleRelay relayId) [Net reply] s in
  out.2 = Returned tt
  ∧ relayToggling (globals out.1) = false
  ∧ length (alertArea (dom out.1)) = S (length (alertArea (dom s)))
  ∧ relayButtons (dom out.1)
    = (if reports_success reply
       then rendered relayId (reported_state reply) (relayButtons (dom s))
       else relayButtons (dom s))
  ∧ (∀ other, other ≠ relayId →
       relayButtons (dom out.1) !! other = relayButtons (dom s) !! other).
Proof.
  intros Hfree out.
  assert (Hout : out.2 = Returned tt
                 ∧ relayToggling (globals out.1) = false
                 ∧ length (alertArea (dom out.1)) = S (length (alertArea (dom s)))
                 ∧ relayButtons (dom out.1)
                   = (if reports_success reply
                      then rendered relayId (reported_state reply) (relayButtons (dom s))
                      else relayButtons (dom s))).
  { subst out. unfold toggleRelay, reports_success, reported_state. cbn. rewrite Hfree.
    destruct reply as [[[] st [data|]]|e]; cbn; unfold json_of; cbn;
      try (split_and!; [reflexivity | reflexivity | rewrite length_app; cbn; lia
                       | reflexivity]).
    destruct data; cbn;
      try (split_and!; [reflexivity | reflexivity | rewrite length_app; cbn; lia
                       | reflexivity]).
    destruct (truthy (default VUndef (o !! "success"))) eqn:Hok; cbn.
    - unfold rendered.
      destruct (relayButtons (dom s) !! relayId) as [b|]; cbn;
        (split_and!; [reflexivity | reflexivity | rewrite length_app; cbn; lia
                     | reflexivity]).
    - split_and!; [reflexivity | reflexivity | rewrite length_app; cbn; lia
                  | reflexivity]. }
  destruct Hout as (H1 & H2 & H3 & H4). split_and!; try done.
  intros other Hne. rewrite H4. destruct (reports_success reply); [| reflexivity].
  unfold rendered. destruct (relayButtons (dom s) !! relayId); [| reflexivity].
  by rewrite lookup_insert_ne.
Qed.

Lemma toggleRelay_outcome_witness :
  length (alertArea (dom (exec (toggleRelay "relay_1") [Net (toggled false)] lamp_on).1))
  = S (length (alertArea (dom lamp_on))).
Proof.
  apply (toggleRelay_outcome lamp_on "relay_1" (toggled false)). reflexivity.
Defined.

(** ** Refreshing the relay buttons *)

Lemma rendered_other (relayId other : string) (state : jsval)
    (bs : gmap string relay_button) :
  other ≠ relayId → rendered relayId state bs !! other = bs !! other.
Proof.
  intros Hne. unfold rendered. destruct (bs !! relayId); [| reflexivity].
  by rewrite lookup_insert_ne.
Qed.

Lemma rendered_same (relayId : string) (state : jsval) (bs : gmap string relay_button) :
  rendered relayId state bs !! relayId = render_relay state <$> bs !! relayId.
Proof.
  unfold rendered. destruct (bs !! relayId) as [b|] eqn:Hb.
  - by rewrite lookup_insert_eq.
  - by rewrite Hb.
Qed.

Lemma render_all_other (relays : list (string * jsval)) (bs : gmap string relay_button)
    (other : string) :
  other ∉ relays.*1 → render_all relays bs !! other = bs !! other.
Proof.
  revert bs. induction relays as [|[relayId relayInfo] relays IH]; intros bs Hnot;
    [reflexivity |].
  cbn in *. apply not_elem_of_cons in Hnot as [Hne Hnot].
  unfold render_all in *. cbn. rewrite IH by exact Hnot. by apply rendered_other.
Qed.

Lemma render_all_listed (relays : list (string * jsval)) (bs : gmap string relay_button)
    (relayId : string) (relayInfo : jsval) :
  NoDup relays.*1 → (relayId, relayInfo) ∈ relays →
  render_all relays bs !! relayId
  = render_relay (member relayInfo "state") <$> bs !! relayId.
Proof.
  revert bs. induction relays as [|[i v] relays IH]; intros bs Hnodup Hin.
  - by apply elem_of_nil in Hin.
  - cbn in Hnodup. apply NoDup_cons in Hnodup as [Hi Hnodup].
    apply elem_of_cons in Hin as [Heq|Hin].
    + injection Heq as <- <-. unfold render_all. cbn.
      fold (render_all relays (rendered relayId (member relayInfo "state") bs)).
      rewrite render_all_other by exact Hi. apply rendered_same.
    + assert (Hne : relayId ≠ i).
      { intros ->. apply Hi. apply list_elem_of_fmap. by exists (i, relayInfo). }
      unfold render_all. cbn.
      fold (render_all relays (rendered i (member v "state") bs)).
      rewrite (IH _ Hnodup Hin). by rewrite rendered_other.
Qed.

(** The loop of [refreshRelayStates] over well-formed entries. *)
Lemma for_each_renders (relays : list (string * jsval)) (h : exn → Prog unit)
    (net : list reply) (s : State) :
  Forall (λ relay, relay.2 ≠ VNull ∧ relay.2 ≠ VUndef) relays →
  exec (try_catch
          (for_each relays (λ '(relayId, relayInfo),
             state ← relayInfo.["state"];
             updateRelayButtonState relayId state)) h) net s
  = (set_relayButtons (render_all relays (relayButtons (dom s))) s, Returned tt).
Proof.
  revert s. induction relays as [|[relayId relayInfo] relays IH]; intros s Hgood.
  - cbn. by destruct s as [g [] w].
  - apply Forall_cons in Hgood as [[Hnull Hundef] Hgood]. cbn in Hnull, Hundef.
    unfold render_all. cbn [for_each foldl fst snd].
    fold (render_all relays
            (rendered relayId (member relayInfo "state") (relayButtons (dom s)))).
    unfold updateRelayButtonState, rendered.
    destruct relayInfo; try done; cbn;
      (destruct (relayButtons (dom s) !! relayId) as [button|] eqn:Hbutton; cbn;
       rewrite (IH _ Hgood); cbn; [reflexivity | by destruct s as [g [] w]]).
Qed.

(** X21. [refreshRelayStates] brings every listed button up to date. When
    the backend answers with an object that lists a state object for each
    relay, the call returns normally; afterwards the button of each listed
    relay that the toolbar has is rendered for the listed state, whatever
    it showed before, and the other buttons are as they were; no toast is
    shown and the toggle flag is not touched. *)
Theorem refreshRelayStates_renders (s : State) (r : response) (data : gmap string jsval) :
  ok r = true → payload r = Some (VObj data) → lists_relays data →
  let out := exec refreshRelayStates [Net (Fulfilled r)] s in
  out.2 = Returned tt
  ∧ (∀ relayId,
       relayButtons (dom out.1) !! relayId
       = match data !! relayId with
         | Some relayInfo =>
             render_relay (member relayInfo "state") <$> relayButtons (dom s) !! relayId
         | None => relayButtons (dom s) !! relayId
         end)
  ∧ alertArea (dom out.1) = alertArea (dom s)
  ∧ relayToggling (globals out.1) = relayToggling (globals s).
Proof.
  intros Hok Hp Hdata out.
  assert (Hout : out = (set_relayButtons
                          (render_all (map_to_list data) (relayButtons (dom s)))
                          (issue [GET "/api/plugins/relay_controller/get_status"] s),
                        Returned tt)).
  { subst out. unfold refreshRelayStates. cbn. rewrite Hok. cbn.
    unfold json_of. rewrite Hp. cbn.
    rewrite (for_each_renders (map_to_list data)); [reflexivity |].
    apply Forall_forall. intros [relayId relayInfo] Hin.
    apply elem_of_map_to_list in Hin. by apply (Hdata relayId). }
  rewrite Hout. cbn. split_and!; try reflexivity.
  intros relayId. destruct (data !! relayId) as [relayInfo|] eqn:Hrelay.
  - apply render_all_listed; [apply NoDup_fst_map_to_list |].
    by apply elem_of_map_to_list.
  - apply render_all_other. intros Hin.
    apply list_elem_of_fmap in Hin as ([i v] & -> & Hin).
    apply elem_of_map_to_list in Hin. cbn in Hrelay. by rewrite Hin in Hrelay.
Qed.

Lemma refreshRelayStates_renders_witness :
  (exec refreshRelayStates [Net (answers (VObj (relay_1_is false)))] lamp_on).2
  = Returned tt.
Proof.
  apply (refreshRelayStates_renders lamp_on
           (Response true 200 (Some (VObj (relay_1_is false)))) (relay_1_is false)
           eq_refl eq_refl).
  intros relayId relayInfo Hin. unfold relay_1_is in Hin.
  apply lookup_singleton_Some in Hin as [_ <-]. by split.
Defined.

(** X22. A refresh that fails is silent. When the fetch is rejected, the
    answer is an HTTP error, or its body is not JSON or is [null],
    [refreshRelayStates] returns normally, leaves the whole page (buttons
    and toasts included) as it was, and writes one line to
    [console.error]. *)
Theorem refreshRelayStates_failure_silent (s : State) (reply : settled response) :
  refresh_fails reply = true →
  let out := exec refreshRelayStates [Net reply] s in
  out.2 = Returned tt
  ∧ dom out.1 = dom s ∧ globals out.1 = globals s
  ∧ length (console_errors (world out.1)) = S (length (console_errors (world s))).
Proof.
  intros Hfails out. subst out. unfold refreshRelayStates.
  destruct reply as [[[] st [data|]]|e]; cbn in *; unfold json_of; cbn.
  - destruct data; try discriminate Hfails. cbn.
    split_and!; try reflexivity. rewrite length_app. cbn. lia.
  - split_and!; try reflexivity. rewrite length_app. cbn. lia.
  - split_and!; try reflexivity. rewrite length_app. cbn. lia.
  - split_and!; try reflexivity. rewrite length_app. cbn. lia.
  - split_and!; try reflexivity. rewrite length_app. cbn. lia.
Qed.

Lemma refreshRelayStates_failure_silent_witness :
  dom (exec refreshRelayStates [Net (Rejected (Error "Failed to fetch"))] lamp_on).1
  = dom lamp_on.
Proof.
  apply (refreshRelayStates_failure_silent lamp_on (Rejected (Error "Failed to fetch"))).
  reflexivity.
Defined.
